(** * mixer command-line front end: dependency guard, profiling scope, exit protocol

    A shallow embedding of package [cmd] of mixer-tools: [mixer/cmd/root.go]
    and the file that defines the [add-rpms] command.  Go strings are byte strings, modelled
    by [string]; the map [externalDeps], keyed by [*cobra.Command], is a
    [gmap] keyed by the command's address; code that prints, looks
    programs up, profiles or exits runs in a small process monad whose
    state is the profiler's status and the chronological log of effects. *)

From Stdlib Require Import ZArith Ascii String List.
From stdpp Require Import base option list sorting gmap strings pretty.

Local Open Scope string_scope.
Local Open Scope list_scope.

(** ** Go strings: order, [sort.Strings], [strings.Join], [len] *)

(** Go's [<=] on strings: byte-wise lexicographic order. *)
Definition string_le (a b : string) : Prop := String.leb a b = true.

(** Go's [<] on strings. *)
Definition string_lt (a b : string) : Prop := String.ltb a b = true.

#[global] Instance string_le_dec a b : Decision (string_le a b).
Proof. unfold string_le. apply _. Defined.

#[global] Instance string_lt_dec a b : Decision (string_lt a b).
Proof. unfold string_lt. apply _. Defined.

(** [sort.Strings]: sorts a slice of strings in increasing order.  Go uses
    an unstable pattern-defeating quicksort; the order being total and
    antisymmetric, every sorting algorithm returns the same slice (see
    [sortStrings_unique]), so a merge sort stands for it. *)
Definition sortStrings (l : list string) : list string := merge_sort string_le l.

(** [strings.Join(elems, sep)]. *)
Fixpoint Join (elems : list string) (sep : string) : string :=
  match elems with
  | [] => ""
  | [x] => x
  | x :: rest => x ++ sep ++ Join rest sep
  end.

(** The line feed, written [\n] in the Go sources. *)
Definition nl : string := String (ascii_of_nat 10) "".

(** ** [unicode/utf8]: counting runes

    [fmt] measures the width of a padded operand in runes.  [first] gives,
    for a lead byte, the length of the encoding it announces and the range
    accepted for the byte that follows; bytes that cannot start an encoding
    have no entry (the table's [xx]). *)
Definition first (c : N) : option (nat * N * N) :=
  if (c <? 194)%N then None
  else if (c <? 224)%N then Some (2, 128%N, 191%N)
  else if (c =? 224)%N then Some (3, 160%N, 191%N)
  else if (c <? 237)%N then Some (3, 128%N, 191%N)
  else if (c =? 237)%N then Some (3, 128%N, 159%N)
  else if (c <? 240)%N then Some (3, 128%N, 191%N)
  else if (c =? 240)%N then Some (4, 144%N, 191%N)
  else if (c <? 244)%N then Some (4, 128%N, 191%N)
  else if (c =? 244)%N then Some (4, 128%N, 143%N)
  else None.

(** A continuation byte lies in [locb, hicb] = [0x80, 0xBF]. *)
Definition continuation (c : N) : bool := ((128 <=? c) && (c <=? 191))%N.

(** The number of bytes the loop of [utf8.RuneCountInString] advances by at
    a byte [c] followed by [rest]: 1 for ASCII, for an invalid or truncated
    encoding, and the encoding's length otherwise. *)
Definition runeSize (c : N) (rest : list N) : nat :=
  if (c <? 128)%N then 1
  else match first c with
       | None => 1
       | Some (size, lo, hi) =>
         if (length rest <? size - 1)%nat then 1
         else match rest with
              | c1 :: rest1 =>
                if ((c1 <? lo) || (hi <? c1))%N then 1
                else if (size =? 2)%nat then size
                else match rest1 with
                     | c2 :: rest2 =>
                       if negb (continuation c2) then 1
                       else if (size =? 3)%nat then size
                       else match rest2 with
                            | c3 :: _ => if negb (continuation c3) then 1 else size
                            | [] => 1
                            end
                     | [] => 1
                     end
              | [] => 1
              end
       end.

(** The loop itself: [skip] bytes still belong to the rune counted last. *)
Fixpoint runeCountFrom (skip : nat) (s : list N) : nat :=
  match s with
  | [] => 0
  | c :: rest =>
    match skip with
    | S k => runeCountFrom k rest
    | O => S (runeCountFrom (runeSize c rest - 1) rest)
    end
  end.

Fixpoint bytesOf (s : string) : list N :=
  match s with
  | EmptyString => []
  | String c s' => N_of_ascii c :: bytesOf s'
  end.

Definition RuneCountInString (s : string) : nat := runeCountFrom 0 (bytesOf s).

(** ** [fmt]

    An operand of a formatting call: its dynamic type as [%T] prints it and
    its text as [%v] (for an error, [Error()]) prints it. *)
Record Value := mkValue { goType : string; goText : string }.

(** A Go [error] is kept as such a value. *)
Definition error := Value.

Definition str (s : string) : Value := mkValue "string" s.

Fixpoint extraOperands (args : list Value) : string :=
  match args with
  | [] => ""
  | [a] => goType a ++ "=" ++ goText a
  | a :: rest => goType a ++ "=" ++ goText a ++ ", " ++ extraOperands rest
  end.

(** What [fmt] appends for operands that no verb consumed. *)
Definition extraNotice (args : list Value) : string :=
  match args with
  | [] => ""
  | _ => "%!(EXTRA " ++ extraOperands args ++ ")"
  end.

(** [fmt.Sprintf] for formats whose verbs carry no flag, width or precision
    (all that [fail], [failf] and [errors.Errorf] are called with here):
    [%s] and [%v] print the operand's text, [%%] a percent sign, any other
    verb its bad-verb notice; a verb without operand prints [MISSING], and
    operands left over are reported as [EXTRA].  Verbs are single bytes. *)
Fixpoint Sprintf (format : string) (args : list Value) : string :=
  match format with
  | EmptyString => extraNotice args
  | String "%" EmptyString => "%!(NOVERB)" ++ extraNotice args
  | String "%" (String verb rest) =>
    if Ascii.eqb verb "%" then "%" ++ Sprintf rest args
    else match args with
         | [] => "%!" ++ String verb "(MISSING)" ++ Sprintf rest []
         | a :: args' =>
           (if Ascii.eqb verb "s" || Ascii.eqb verb "v" then goText a
            else "%!" ++ String verb ("(" ++ goType a ++ "=" ++ goText a ++ ")"))
           ++ Sprintf rest args'
         end
  | String c rest => String c (Sprintf rest args)
  end.

Fixpoint spaces (n : nat) : string :=
  match n with
  | O => ""
  | S k => String " " (spaces k)
  end.

(** The operand of [%-*s] with width [wid]: [fmt]'s [padString] with the
    minus flag writes the string, then [wid - RuneCountInString s] spaces
    when that is positive. *)
Definition padString (wid : nat) (s : string) : string :=
  s ++ spaces (wid - RuneCountInString s).

(** ** The process: effects, state, termination *)

(** What a run does to the outside, in the order it does it. *)
Inductive Event : Type :=
| EvStdout (text : string)           (* one write to os.Stdout *)
| EvStderr (text : string)           (* one write to os.Stderr *)
| EvCreate (path : string)           (* os.Create opened the file *)
| EvStartCPUProfile                  (* pprof.StartCPUProfile began a capture *)
| EvStopCPUProfile                   (* pprof.StopCPUProfile was called *)
| EvLookPath (name : string)         (* exec.LookPath searched for name *)
| EvRun (cmd : positive)             (* cobra called the Run of the command at cmd *)
| EvNewFromConfig (path : string)    (* builder.NewFromConfig *)
| EvReadDir (path : string)          (* ioutil.ReadDir *)
| EvAddRPMList (rpms : list string)  (* Builder.AddRPMList *)
| EvCreateDefaultConfig (localrpms : bool)          (* Builder.CreateDefaultConfig *)
| EvLoadBuilderConf (path : string)                 (* Builder.LoadBuilderConf *)
| EvReadBuilderConf                                 (* Builder.ReadBuilderConf *)
| EvInitMix (clearver mixver : string) (all : bool) (url : string). (* Builder.InitMix *)

(** The state of the process: whether [runtime/pprof] has a CPU capture
    running, and the effects so far, oldest first. *)
Record World := mkWorld { profiling : bool; log : list Event }.

(** A computation either returns to its caller or has ended the process
    through [os.Exit]. *)
Inductive Outcome (A : Type) : Type :=
| Return (a : A) (w : World)
| Exited (status : Z) (w : World).
Arguments Return {A} a w.
Arguments Exited {A} status w.

Definition M (A : Type) : Type := World → Outcome A.

Definition ret {A} (a : A) : M A := λ w, Return a w.

(** Sequencing: once the process has exited, nothing follows. *)
Definition bind {A B} (m : M A) (f : A → M B) : M B := λ w,
  match m w with
  | Return a w' => f a w'
  | Exited status w' => Exited status w'
  end.

Declare Scope proc_scope.
Delimit Scope proc_scope with proc.
Bind Scope proc_scope with M.
Notation "x ← y ; z" := (bind y (λ x : _, z))
  (at level 20, y at level 100, z at level 200, only parsing) : proc_scope.
Notation "x ;; z" := (bind x (λ _, z))
  (at level 100, z at level 200, only parsing, right associativity) : proc_scope.
Local Open Scope proc_scope.

Definition emit (e : Event) : M unit :=
  λ w, Return tt (mkWorld (profiling w) (log w ++ [e])).

(** [os.Exit(status)]: nothing after it runs, deferred or not. *)
Definition osExit {A} (status : Z) : M A := λ w, Exited status w.

(** The world in which an outcome leaves the process. *)
Definition worldOf {A} (o : Outcome A) : World :=
  match o with
  | Return _ w => w
  | Exited _ w => w
  end.

(** [pprof.StartCPUProfile]: fails when a capture is already running. *)
Definition StartCPUProfile : M (option error) :=
  λ w, if profiling w
       then Return (Some (mkValue "*errors.errorString" "cpu profiling already in use")) w
       else Return None (mkWorld true (log w ++ [EvStartCPUProfile])).

(** [pprof.StopCPUProfile]: ends the capture, if there is one. *)
Definition StopCPUProfile : M unit :=
  λ w, Return tt (mkWorld false (log w ++ [EvStopCPUProfile])).

(** [for i, x := range l], threading the variables the body assigns. *)
Fixpoint forRange {A V} (body : nat → A → V → M V) (i : nat) (l : list A) (v : V) : M V :=
  match l with
  | [] => ret v
  | x :: l' => v' ← body i x v; forRange body (S i) l' v'
  end.

(** ** Package state and the world outside *)

(** [initCmdFlags]. *)
Record initCmdFlags := mkInitCmdFlags {
  all : bool;
  clearver : Z;
  mixver : Z;
  upstreamurl : string
}.

(** The package variables that flag parsing sets: the fields of
    [rootCmdFlags], then [config], [localrpms] and [initFlags]. *)
Record Globals := mkGlobals {
  version : bool;
  check : bool;
  cpuProfile : string;
  config : string;
  localrpms : bool;
  initFlags : initCmdFlags
}.

(** The one field of [builder.Builder] this package reads. *)
Record Builder := mkBuilder { RPMdir : string }.

(** What the code asks of the operating system, of the Go runtime and of
    package [builder], whose sources are not part of this package. *)
Record Env := mkEnv {
  (* exec.LookPath: whether the name resolves in the search path *)
  lookPathFinds : string → bool;
  (* os.Create: the error, if the file cannot be created *)
  createFails : string → option error;
  (* the order in which range visits the entries of a map in this run *)
  rangeOrder : list (positive * list string) → list (positive * list string);
  (* cobra's Command.UsageString, for the command at an address *)
  usageString : positive → string;
  (* builder.Version *)
  Version : string;
  (* builder.NewFromConfig *)
  newFromConfig : string → Builder + error;
  (* ioutil.ReadDir: the entries' names *)
  readDir : string → list string + error;
  (* Builder.AddRPMList *)
  addRPMList : Builder → list string → option error;
  (* Builder.CreateDefaultConfig, LoadBuilderConf, ReadBuilderConf, InitMix *)
  createDefaultConfig : bool → option error;
  loadBuilderConf : string → option error;
  readBuilderConf : option error;
  initMix : string → string → bool → string → option error
}.

(** Go leaves the order of a map's entries under [range] unspecified; each
    entry is visited once. *)
Definition RangeVisitsEachOnce (env : Env) : Prop :=
  ∀ l, rangeOrder env l ≡ₚ l.

(** ** [cobra.Command]

    A command is its address, its [Use] line, its [Run] and its parent; a
    root has none.  [Run] receives the package state it reads. *)
#[warnings="-register-all"] Inductive Command : Type :=
  mkCommand (ptr : positive) (Use : string)
            (Run : Env → Globals → M unit) (parent : option Command).

Definition ptr (c : Command) : positive := let (p, _, _, _) := c in p.
Definition Use (c : Command) : string := let (_, u, _, _) := c in u.
Definition Run (c : Command) : Env → Globals → M unit := let (_, _, r, _) := c in r.
Definition Parent (c : Command) : option Command := let (_, _, _, p) := c in p.

(** ** [root.go] *)

(** [externalDeps[cmd]]: a key that is absent reads as the nil slice. *)
Definition depsOf (externalDeps : gmap positive (list string)) (cmd : Command) : list string :=
  default [] (externalDeps !! ptr cmd).

(** [exec.LookPath(dep)], keeping of its result whether [err] is nil. *)
Definition LookPath (env : Env) (dep : string) : M bool :=
  emit (EvLookPath dep);; ret (lookPathFinds env dep).

(** [fmt.Printf] and [fmt.Println], given the text they produce. *)
Definition printStdout (text : string) : M unit := emit (EvStdout text).

(** [fail]; it does not return. *)
Definition fail {A} (g : Globals) (err : error) : M A :=
  (if bool_decide (cpuProfile g ≠ "") then StopCPUProfile else ret tt);;
  emit (EvStderr (Sprintf ("ERROR: %s" ++ nl) [err]));;
  osExit 1.

(** [failf]; it does not return. *)
Definition failf {A} (g : Globals) (format : string) (a : list Value) : M A :=
  emit (EvStderr (Sprintf (Sprintf ("ERROR: %s" ++ nl) [str format]) a));;
  osExit 1.

(** The first loop of [checkCmdDeps]: the declared dependencies of [cmd],
    of its parent, and so on up to the root. *)
Fixpoint chainDeps (externalDeps : gmap positive (list string)) (cmd : Command) : list string :=
  match cmd with
  | mkCommand p _ _ parent =>
    default [] (externalDeps !! p) ++
    match parent with
    | Some c => chainDeps externalDeps c
    | None => []
    end
  end.

(** [i > 0 && deps[i] == deps[i-1]], for [i] in range. *)
Definition isDuplicate (deps : list string) (i : nat) : bool :=
  (0 <? i)%nat &&
  match deps !! i, deps !! (i - 1) with
  | Some a, Some b => String.eqb a b
  | _, _ => false
  end.

(** [errors.Errorf]. *)
Definition Errorf (format : string) (a : list Value) : error :=
  mkValue "*errors.fundamental" (Sprintf format a).

(** The second loop of [checkCmdDeps], which the specification calls
    [verify]: the names of the sorted slice [deps] that do not resolve,
    each run of equal names looked up once. *)
Definition verify (env : Env) (deps : list string) : M (list string) :=
  forRange (λ i dep (missing : list string),
      if isDuplicate deps i then ret missing
      else found ← LookPath env dep;
           if found then ret missing else ret (missing ++ [dep]))
    0 deps [].

(** [checkCmdDeps]. *)
Definition checkCmdDeps (env : Env) (externalDeps : gmap positive (list string))
    (cmd : Command) : M (option error) :=
  let deps := sortStrings (chainDeps externalDeps cmd) in
  missing ← verify env deps;
  if (0 <? length missing)%nat
  then ret (Some (Errorf "missing following external programs: %s"
                          [str (Join missing ", ")]))
  else ret None.

(** The slice [allDeps] of [checkAllDeps] before it is sorted. *)
Definition allDeclared (env : Env) (externalDeps : gmap positive (list string)) : list string :=
  concat ((rangeOrder env (map_to_list externalDeps)).*2).

(** The loop of [checkAllDeps] that computes [max]. *)
Definition maxLen (allDeps : list string) : nat :=
  fold_left (λ max dep, if (max <? String.length dep)%nat then String.length dep else max)
            allDeps 0.

(** [checkAllDeps]. *)
Definition checkAllDeps (env : Env) (externalDeps : gmap positive (list string)) : M bool :=
  let allDeps := sortStrings (allDeclared env externalDeps) in
  let max := maxLen allDeps in
  printStdout ("Programs used by Mixer commands:" ++ nl);;
  forRange (λ i dep (ok : bool),
      if isDuplicate allDeps i then ret ok
      else found ← LookPath env dep;
           if negb found
           then printStdout ("  " ++ padString max dep ++ " not found" ++ nl);; ret false
           else printStdout ("  " ++ padString max dep ++ " ok" ++ nl);; ret ok)
    0 allDeps true.

(** [RootCmd.PersistentPreRunE]. *)
Definition PersistentPreRunE (env : Env) (externalDeps : gmap positive (list string))
    (g : Globals) (cmd : Command) : M (option error) :=
  (if bool_decide (cpuProfile g ≠ "") then
     match createFails env (cpuProfile g) with
     | Some err => failf g "couldn't create file for CPU profile: %s" [err]
     | None => emit (EvCreate (cpuProfile g))
     end;;
     err ← StartCPUProfile;
     match err with
     | Some err => failf g "couldn't start profiling: %s" [err]
     | None => ret tt
     end
   else ret tt);;
  match Parent cmd with
  | None =>
    (if version g
     then printStdout (Sprintf ("Mixer %s" ++ nl) [str (Version env)]);; osExit 0
     else ret tt);;
    (if check g
     then ok ← checkAllDeps env externalDeps;
          (if negb ok then osExit 1 else ret tt);;
          osExit 0
     else ret tt)
  | Some _ => ret tt
  end;;
  checkCmdDeps env externalDeps cmd.

(** [RootCmd.PersistentPostRun]. *)
Definition PersistentPostRun (g : Globals) : M unit :=
  if bool_decide (cpuProfile g ≠ "") then StopCPUProfile else ret tt.

(** [RootCmd.Execute()] of cobra once the arguments selected [cmd], a
    command under [RootCmd]: the persistent pre-run hook of the root, then
    the command's [Run], then the persistent post-run hook.  An error of
    the hook skips the other two; cobra prints it and the usage to its
    error stream and returns it. *)
Definition cobraExecute (env : Env) (externalDeps : gmap positive (list string))
    (g : Globals) (cmd : Command) : M (option error) :=
  err ← PersistentPreRunE env externalDeps g cmd;
  match err with
  | Some e =>
    emit (EvStderr ("Error: " ++ goText e ++ nl));;
    emit (EvStderr (usageString env (ptr cmd) ++ nl));;
    ret (Some e)
  | None =>
    emit (EvRun (ptr cmd));;
    Run cmd env g;;
    PersistentPostRun g;;
    ret None
  end.

(** [Execute]. *)
Definition Execute (env : Env) (externalDeps : gmap positive (list string))
    (g : Globals) (cmd : Command) : M unit :=
  err ← cobraExecute env externalDeps g cmd;
  match err with
  | Some _ => osExit 1
  | None => ret tt
  end.

(** [main]: returning from it ends the process with status 0. *)
Definition main (env : Env) (externalDeps : gmap positive (list string))
    (g : Globals) (cmd : Command) : M unit :=
  Execute env externalDeps g cmd;; osExit 0.

(** [strconv.Itoa]. *)
Definition Itoa (n : Z) : string := pretty n.

(** The [Run] of [RootCmd]: cobra's [Print] writes the usage to the
    command's error stream. *)
Definition runRoot (self : positive) (env : Env) (g : Globals) : M unit :=
  emit (EvStderr (usageString env self)).

(** The [Run] of [initCmd]. *)
Definition runInit (env : Env) (g : Globals) : M unit :=
  (if bool_decide (config g = "") then
     emit (EvCreateDefaultConfig (localrpms g));;
     match createDefaultConfig env (localrpms g) with
     | Some err => fail g err
     | None => ret tt
     end
   else ret tt);;
  emit (EvLoadBuilderConf (config g));;
  match loadBuilderConf env (config g) with
  | Some err => fail g err
  | None => ret tt
  end;;
  emit EvReadBuilderConf;;
  match readBuilderConf env with
  | Some err => fail g err
  | None => ret tt
  end;;
  let f := initFlags g in
  emit (EvInitMix (Itoa (clearver f)) (Itoa (mixver f)) (all f) (upstreamurl f));;
  match initMix env (Itoa (clearver f)) (Itoa (mixver f)) (all f) (upstreamurl f) with
  | Some err => fail g err
  | None => ret tt
  end.

(** ** The [add-rpms] command *)

(** [runAddRPM]. *)
Definition runAddRPM (env : Env) (g : Globals) : M unit :=
  emit (EvNewFromConfig (config g));;
  b ← match newFromConfig env (config g) with
      | inr err => fail g err
      | inl b => ret b
      end;
  (if bool_decide (RPMdir b = "")
   then failf g "RPMDIR not set in configuration" []
   else ret tt);;
  emit (EvReadDir (RPMdir b));;
  rpms ← match readDir env (RPMdir b) with
         | inr err => failf g "cannot read RPMDIR: %s" [err]
         | inl rpms => ret rpms
         end;
  emit (EvAddRPMList rpms);;
  match addRPMList env b rpms with
  | Some err => fail g err
  | None => ret tt
  end.

(** ** The command tree and the registry that the [init] functions build *)

Definition RootCmd : Command := mkCommand 1 "mixer" (runRoot 1) None.
Definition initCmd : Command := mkCommand 2 "init" runInit (Some RootCmd).
Definition addRPMCmd : Command := mkCommand 3 "add-rpms" runAddRPM (Some RootCmd).

Definition externalDeps : gmap positive (list string) :=
  <[ptr addRPMCmd := ["createrepo_c"; "hardlink"]]> (<[ptr initCmd := ["git"]]> ∅).

(** ** Vocabulary of the specification *)

(** The world after further effects. *)
Definition extend (w : World) (evs : list Event) : World :=
  mkWorld (profiling w) (log w ++ evs).

(** The names that a log shows [exec.LookPath] was asked for, in order. *)
Definition lookedUp (l : list Event) : list string :=
  omap (λ e, match e with EvLookPath name => Some name | _ => None end) l.

(** A command followed by its ancestors, the root last. *)
Fixpoint chain (cmd : Command) : list Command :=
  match cmd with
  | mkCommand _ _ _ parent =>
    cmd :: match parent with
           | Some c => chain c
           | None => []
           end
  end.

(** The ancestor closure: the set of names declared by a command or by one
    of its ancestors. *)
Definition chainSet (externalDeps : gmap positive (list string)) (cmd : Command) : gset string :=
  ⋃ ((λ c, list_to_set (depsOf externalDeps c)) <$> chain cmd).

(** The global union: the set of names declared by any command. *)
Definition allSet (externalDeps : gmap positive (list string)) : gset string :=
  ⋃ (list_to_set <$> (map_to_list externalDeps).*2).

(** The members of a set of names in increasing order. *)
Definition sortedNames (X : gset string) : list string := sortStrings (elements X).

(** The elements of a slice that differ from the element before them,
    [prev] being the one before the first. *)
Fixpoint skipRepeats (prev : option string) (l : list string) : list string :=
  match l with
  | [] => []
  | x :: l' =>
    if bool_decide (prev = Some x) then skipRepeats (Some x) l'
    else x :: skipRepeats (Some x) l'
  end.

(** The value that [checkCmdDeps] returns when the names [missing] did not
    resolve: nil for none, else the MissingExternalTool error. *)
Definition missingError (missing : list string) : option error :=
  match missing with
  | [] => None
  | _ => Some (mkValue "*errors.fundamental"
                       ("missing following external programs: " ++ Join missing ", "))
  end.

(** The header that the global check prints first. *)
Definition reportHeader : string := "Programs used by Mixer commands:" ++ nl.

(** A name does not resolve in the search path. *)
Definition unresolved (env : Env) (name : string) : Prop := lookPathFinds env name = false.

#[global] Instance unresolved_dec env name : Decision (unresolved env name).
Proof. unfold unresolved. apply _. Defined.

(** The line that the global check prints for a name, [wid] being the
    width of the name column. *)
Definition reportLine (env : Env) (wid : nat) (dep : string) : string :=
  "  " ++ padString wid dep ++
  (if lookPathFinds env dep then " ok" else " not found") ++ nl.

(** What the global check does for one name: the lookup, then its line. *)
Definition reportEvents (env : Env) (wid : nat) (dep : string) : list Event :=
  [EvLookPath dep; EvStdout (reportLine env wid dep)].

(** The profiling set-up of [PersistentPreRunE] goes through: no
    destination is configured, or its file can be created and no capture
    is running yet. *)
Definition profileSetupSucceeds (env : Env) (g : Globals) (w : World) : Prop :=
  cpuProfile g = "" ∨ (createFails env (cpuProfile g) = None ∧ profiling w = false).

(** The world that a successful profiling set-up leaves. *)
Definition afterProfileSetup (g : Globals) (w : World) : World :=
  if bool_decide (cpuProfile g ≠ "")
  then mkWorld true (log w ++ [EvCreate (cpuProfile g); EvStartCPUProfile])
  else w.

(** The invocation is one of the two queries of the root command that
    bypass the dependency check. *)
Definition rootQuery (g : Globals) (cmd : Command) : bool :=
  match Parent cmd with
  | None => version g || check g
  | Some _ => false
  end.

(** ** Sample hosts and invocations *)

(** A host on which no program resolves; [range] visits a map's entries
    in the reverse of their stored order; the configuration names no RPM
    directory. *)
Definition bareHost : Env := {|
  lookPathFinds := λ _, false;
  createFails := λ _, None;
  rangeOrder := reverse;
  usageString := λ _, "Usage: mixer [command]";
  Version := "4.0.1";
  newFromConfig := λ _, inl (mkBuilder "");
  readDir := λ _, inl [];
  addRPMList := λ _ _, None;
  createDefaultConfig := λ _, None;
  loadBuilderConf := λ _, None;
  readBuilderConf := None;
  initMix := λ _ _ _ _, None
|}.

(** The same host with [git] installed. *)
Definition gitHost : Env := {|
  lookPathFinds := String.eqb "git";
  createFails := createFails bareHost;
  rangeOrder := rangeOrder bareHost;
  usageString := usageString bareHost;
  Version := Version bareHost;
  newFromConfig := newFromConfig bareHost;
  readDir := readDir bareHost;
  addRPMList := addRPMList bareHost;
  createDefaultConfig := createDefaultConfig bareHost;
  loadBuilderConf := loadBuilderConf bareHost;
  readBuilderConf := readBuilderConf bareHost;
  initMix := initMix bareHost
|}.

(** The bare host with a working directory in which no file can be
    created. *)
Definition readOnlyHost : Env := {|
  lookPathFinds := lookPathFinds bareHost;
  createFails := λ path, Some (mkValue "*os.PathError" ("open " ++ path ++ ": permission denied"));
  rangeOrder := rangeOrder bareHost;
  usageString := usageString bareHost;
  Version := Version bareHost;
  newFromConfig := newFromConfig bareHost;
  readDir := readDir bareHost;
  addRPMList := addRPMList bareHost;
  createDefaultConfig := createDefaultConfig bareHost;
  loadBuilderConf := loadBuilderConf bareHost;
  readBuilderConf := readBuilderConf bareHost;
  initMix := initMix bareHost
|}.

(** The flags of [mixer init], left at their defaults. *)
Definition defaultInitFlags : initCmdFlags :=
  mkInitCmdFlags false 1 0 "https://download.clearlinux.org".

(** An invocation with the given root flags and no others. *)
Definition invocation (version check : bool) (cpuProfile : string) : Globals :=
  mkGlobals version check cpuProfile "" false defaultInitFlags.

(** A process that has just started. *)
Definition fresh : World := mkWorld false [].

(** A process whose CPU capture into [cpu.prof] is running. *)
Definition capturing : World := mkWorld true [EvCreate "cpu.prof"; EvStartCPUProfile].

(** A host whose configuration names the directory [rpms], holding two
    packages. *)
Definition rpmHost : Env := {|
  lookPathFinds := λ _, true;
  createFails := createFails bareHost;
  rangeOrder := rangeOrder bareHost;
  usageString := usageString bareHost;
  Version := Version bareHost;
  newFromConfig := λ _, inl (mkBuilder "rpms");
  readDir := λ _, inl ["a.rpm"; "b.rpm"];
  addRPMList := addRPMList bareHost;
  createDefaultConfig := createDefaultConfig bareHost;
  loadBuilderConf := loadBuilderConf bareHost;
  readBuilderConf := readBuilderConf bareHost;
  initMix := initMix bareHost
|}.

(** The bare host with a configuration file that cannot be loaded. *)
Definition brokenConfHost : Env := {|
  lookPathFinds := lookPathFinds bareHost;
  createFails := createFails bareHost;
  rangeOrder := rangeOrder bareHost;
  usageString := usageString bareHost;
  Version := Version bareHost;
  newFromConfig := newFromConfig bareHost;
  readDir := readDir bareHost;
  addRPMList := addRPMList bareHost;
  createDefaultConfig := createDefaultConfig bareHost;
  loadBuilderConf := λ _, Some (str "builder.conf: no such file");
  readBuilderConf := readBuilderConf bareHost;
  initMix := initMix bareHost
|}.

(** The events of [runInit] up to the loading of the configuration. *)
Definition initPrelude (g : Globals) : list Event :=
  (if bool_decide (config g = "") then [EvCreateDefaultConfig (localrpms g)] else [])
  ++ [EvLoadBuilderConf (config g)].

(** An outcome that returns to the caller or leaves the process with
    status 0 or 1. *)
Definition exitsZeroOrOne {A} (o : Outcome A) : Prop :=
  match o with
  | Return _ _ => True
  | Exited status _ => status = 0%Z ∨ status = 1%Z
  end.

(** The commands of the package. *)
Definition mixerCommands : list Command := [RootCmd; initCmd; addRPMCmd].

(** A format without a percent sign. *)
Fixpoint noVerb (format : string) : bool :=
  match format with
  | EmptyString => true
  | String c rest => negb (Ascii.eqb c "%") && noVerb rest
  end.


(** The host of [rpmHost] with an RPM directory that cannot be read. *)
Definition unreadableDirHost : Env := {|
  lookPathFinds := lookPathFinds rpmHost;
  createFails := createFails rpmHost;
  rangeOrder := rangeOrder rpmHost;
  usageString := usageString rpmHost;
  Version := Version rpmHost;
  newFromConfig := newFromConfig rpmHost;
  readDir := λ path, inr (mkValue "*os.PathError" ("open " ++ path ++ ": permission denied"));
  addRPMList := addRPMList rpmHost;
  createDefaultConfig := createDefaultConfig rpmHost;
  loadBuilderConf := loadBuilderConf rpmHost;
  readBuilderConf := readBuilderConf rpmHost;
  initMix := initMix rpmHost
|}.

(** * Properties *)

(** ** The order on strings *)

Lemma string_compare_refl (a : string) : String.compare a a = Eq.
Proof.
  induction a as [|c a IH]; simpl; [done|].
  replace (Ascii.compare c c) with Eq; [done|].
  symmetry. unfold Ascii.compare. apply N.compare_refl.
Qed.

Lemma string_compare_lt_trans (a b c : string) :
  String.compare a b = Lt → String.compare b c = Lt → String.compare a c = Lt.
Proof.
  revert b c. induction a as [|x a IH]; intros [|y b] [|z c]; simpl; try done.
  unfold Ascii.compare.
  destruct (N.compare_spec (N_of_ascii x) (N_of_ascii y)) as [Hxy|Hxy|Hxy];
    destruct (N.compare_spec (N_of_ascii y) (N_of_ascii z)) as [Hyz|Hyz|Hyz];
    try done; intros Hab Hbc.
  - rewrite Hxy, Hyz, N.compare_refl. eauto.
  - rewrite Hxy. by apply N.compare_lt_iff in Hyz as ->.
  - rewrite <- Hyz. by apply N.compare_lt_iff in Hxy as ->.
  - assert (N_of_ascii x < N_of_ascii z)%N as Hxz by (etrans; done).
    by apply N.compare_lt_iff in Hxz as ->.
Qed.

Lemma string_le_lt_eq (a b : string) : string_le a b ↔ string_lt a b ∨ a = b.
Proof.
  unfold string_le, string_lt, String.leb, String.ltb.
  destruct (String.compare a b) eqn:Hc; split.
  - intros _. right. by apply String.compare_eq_iff.
  - done.
  - by left.
  - done.
  - done.
  - intros [?| ->]; [done|]. by rewrite string_compare_refl in Hc.
Qed.

Lemma string_lt_irrefl (a : string) : ¬ string_lt a a.
Proof. unfold string_lt, String.ltb. by rewrite string_compare_refl. Qed.

#[global] Instance string_lt_trans : Transitive string_lt.
Proof.
  intros a b c. unfold string_lt, String.ltb.
  destruct (String.compare a b) eqn:Hab; try done.
  destruct (String.compare b c) eqn:Hbc; try done.
  by rewrite (string_compare_lt_trans a b c).
Qed.

#[global] Instance string_le_refl : Reflexive string_le.
Proof. intros a. apply string_le_lt_eq. by right. Qed.

#[global] Instance string_le_trans : Transitive string_le.
Proof.
  intros a b c [Hab| ->]%string_le_lt_eq [Hbc| ->]%string_le_lt_eq;
    apply string_le_lt_eq; eauto.
  left. by trans b.
Qed.

#[global] Instance string_le_antisym : AntiSymm (=) string_le.
Proof. intros a b. apply String.leb_antisym. Qed.

#[global] Instance string_le_total : Total string_le.
Proof. intros a b. apply String.leb_total. Qed.

(** ** [sort.Strings] *)

Lemma sortStrings_sorted (l : list string) : StronglySorted string_le (sortStrings l).
Proof. apply StronglySorted_merge_sort; apply _. Qed.

Lemma sortStrings_perm (l : list string) : sortStrings l ≡ₚ l.
Proof. apply merge_sort_Permutation. Qed.

Lemma sortStrings_elem_of (l : list string) (x : string) : x ∈ sortStrings l ↔ x ∈ l.
Proof. by rewrite sortStrings_perm. Qed.

(** Sorting is determined by its specification: whatever algorithm
    [sort.Strings] runs, it returns this slice. *)
Lemma sortStrings_unique (l l' : list string) :
  l' ≡ₚ l → Sorted string_le l' → l' = sortStrings l.
Proof.
  intros Hp Hs. apply (Sorted_unique string_le); [done| |].
  - apply Sorted_merge_sort; apply _.
  - by rewrite sortStrings_perm.
Qed.

Lemma sortStrings_nil : sortStrings [] = [].
Proof. done. Qed.

(** ** Worlds and sequencing *)

Lemma extend_nil (w : World) : extend w [] = w.
Proof. destruct w. unfold extend. simpl. by rewrite app_nil_r. Qed.

Lemma extend_extend (w : World) (a b : list Event) :
  extend (extend w a) b = extend w (a ++ b).
Proof. unfold extend. simpl. by rewrite app_assoc. Qed.

Lemma emit_extend (e : Event) (w : World) : emit e w = Return tt (extend w [e]).
Proof. done. Qed.

Lemma LookPath_extend (env : Env) (dep : string) (w : World) :
  LookPath env dep w = Return (lookPathFinds env dep) (extend w [EvLookPath dep]).
Proof. done. Qed.

Lemma lookedUp_app (a b : list Event) : lookedUp (a ++ b) = lookedUp a ++ lookedUp b.
Proof. apply omap_app. Qed.

Lemma lookedUp_LookPath (names : list string) : lookedUp (EvLookPath <$> names) = names.
Proof. induction names as [|x names IH]; simpl; [done|]. by f_equal. Qed.

(** ** The duplicate test of the two loops *)

Lemma isDuplicate_middle (pre rest : list string) (x : string) :
  isDuplicate (pre ++ x :: rest) (length pre) = bool_decide (last pre = Some x).
Proof.
  unfold isDuplicate. rewrite list_lookup_middle by done.
  destruct pre as [|y pre _] using rev_ind; [done|].
  rewrite length_app, last_snoc. simpl.
  replace (length pre + 1 - 1) with (length pre) by lia.
  replace (0 <? length pre + 1)%nat with true by (symmetry; apply Nat.ltb_lt; lia).
  rewrite <- app_assoc. simpl. rewrite list_lookup_middle by done. simpl.
  destruct (String.eqb_spec x y) as [->|Hne].
  - by rewrite bool_decide_eq_true_2.
  - rewrite bool_decide_eq_false_2; [done|]. congruence.
Qed.

(** ** Skipping repeats in a sorted slice *)

Lemma skipRepeats_elem_of (prev : option string) (l : list string) (x : string) :
  x ∈ skipRepeats prev l → x ∈ l.
Proof.
  revert prev. induction l as [|y l IH]; intros prev; simpl; [done|].
  case_bool_decide.
  - intros Hx. right. by eapply IH.
  - intros [->|Hx]%elem_of_cons; [by left|]. right. by eapply IH.
Qed.

Lemma elem_of_skipRepeats (prev : option string) (l : list string) (x : string) :
  x ∈ l → x ∈ skipRepeats prev l ∨ prev = Some x.
Proof.
  revert prev. induction l as [|y l IH]; intros prev; simpl.
  - by intros ?%elem_of_nil.
  - intros [->|Hx]%elem_of_cons.
    + case_bool_decide; [by right|]. left. by left.
    + destruct (IH (Some y) Hx) as [?|[= ->]].
      * left. case_bool_decide; [done|]. by right.
      * case_bool_decide; [by right|]. left. by left.
Qed.

Lemma skipRepeats_None_elem_of (l : list string) (x : string) :
  x ∈ skipRepeats None l ↔ x ∈ l.
Proof.
  split; [apply skipRepeats_elem_of|].
  intros Hx. by destruct (elem_of_skipRepeats None l x Hx).
Qed.

Lemma skipRepeats_sorted (prev : option string) (l : list string) :
  StronglySorted string_le l → StronglySorted string_le (skipRepeats prev l).
Proof.
  revert prev. induction l as [|y l IH]; intros prev Hs; simpl; [done|].
  apply StronglySorted_inv in Hs as [Hs Hy].
  case_bool_decide; [by apply IH|].
  constructor; [by apply IH|].
  apply Forall_forall. intros z Hz%skipRepeats_elem_of.
  rewrite Forall_forall in Hy. by apply Hy.
Qed.

(** In a sorted slice whose elements are not below [prev], what remains
    has no repeats and does not contain [prev]. *)
Lemma skipRepeats_NoDup (prev : option string) (l : list string) :
  StronglySorted string_le l →
  (∀ p, prev = Some p → Forall (string_le p) l) →
  NoDup (skipRepeats prev l) ∧ (∀ p, prev = Some p → p ∉ skipRepeats prev l).
Proof.
  revert prev. induction l as [|y l IH]; intros prev Hs Hprev; simpl.
  - split; [constructor|]. intros p _. apply not_elem_of_nil.
  - apply StronglySorted_inv in Hs as [Hs Hy].
    destruct (IH (Some y) Hs) as [Hnd Hny]; [by intros p [= <-]|].
    case_bool_decide as Hpy.
    + split; [done|]. intros p ->. injection Hpy as ->. by apply Hny.
    + split; [constructor; [by apply Hny|done]|].
      intros p ->. rewrite not_elem_of_cons. split; [congruence|].
      intros Hp%skipRepeats_elem_of.
      specialize (Hprev p eq_refl). apply Forall_cons in Hprev as [Hpy' _].
      rewrite Forall_forall in Hy. specialize (Hy p Hp).
      apply Hpy. f_equal. by apply (anti_symm string_le).
Qed.

Lemma skipRepeats_sortStrings_NoDup (l : list string) :
  NoDup (skipRepeats None (sortStrings l)).
Proof. apply skipRepeats_NoDup; [apply sortStrings_sorted|done]. Qed.

(** The names left after sorting and skipping repeats are the members of
    the slice, in increasing order. *)
Lemma skipRepeats_sortStrings (l : list string) :
  skipRepeats None (sortStrings l) = sortedNames (list_to_set l).
Proof.
  apply sortStrings_unique.
  - apply NoDup_Permutation.
    + apply skipRepeats_sortStrings_NoDup.
    + apply NoDup_elements.
    + intros x. rewrite skipRepeats_None_elem_of, sortStrings_elem_of.
      rewrite elem_of_elements. by rewrite elem_of_list_to_set.
  - apply StronglySorted_Sorted, skipRepeats_sorted, sortStrings_sorted.
Qed.

Lemma sortedNames_elem_of (X : gset string) (x : string) : x ∈ sortedNames X ↔ x ∈ X.
Proof. unfold sortedNames. by rewrite sortStrings_elem_of, elem_of_elements. Qed.

Lemma sortedNames_NoDup (X : gset string) : NoDup (sortedNames X).
Proof. unfold sortedNames. rewrite sortStrings_perm. apply NoDup_elements. Qed.


(** ** The guard on a host and a registry *)

Section Guard.

Context (env : Env) (externalDeps : gmap positive (list string)).

(** *** The lookup loops *)

(** The loop of [verify] from index [length pre] on: it looks up the names
    that differ from their predecessor and keeps those that fail. *)
Lemma verify_from (deps : list string) :
  ∀ (rest pre missing : list string) (w : World),
    deps = pre ++ rest →
    forRange (λ i dep (missing : list string),
        if isDuplicate deps i then ret missing
        else found ← LookPath env dep;
             if found then ret missing else ret (missing ++ [dep]))
      (length pre) rest missing w
    = Return (missing ++ filter (unresolved env) (skipRepeats (last pre) rest))
             (extend w (EvLookPath <$> skipRepeats (last pre) rest)).
Proof.
  induction rest as [|x rest IH]; intros pre missing w Hdeps; simpl.
  - unfold ret. by rewrite app_nil_r, extend_nil.
  - subst deps.
    assert (pre ++ x :: rest = (pre ++ [x]) ++ rest) as Hdeps' by by rewrite <- app_assoc.
    specialize (IH (pre ++ [x])). rewrite length_app, last_snoc in IH. simpl in IH.
    replace (length pre + 1) with (S (length pre)) in IH by lia.
    unfold bind at 1. rewrite isDuplicate_middle.
    case_bool_decide as Hdup.
    + unfold ret at 1. by rewrite IH.
    + unfold bind at 1. rewrite LookPath_extend.
      rewrite filter_cons.
      destruct (decide (unresolved env x)) as [Hu|Hu]; unfold unresolved in Hu.
      * rewrite Hu. unfold ret at 1. rewrite IH by done.
        by rewrite extend_extend, <- app_assoc.
      * apply not_false_iff_true in Hu. rewrite Hu. unfold ret at 1.
        rewrite IH by done. by rewrite extend_extend.
Qed.

Lemma verify_sorted (l : list string) (w : World) :
  verify env (sortStrings l) w
  = Return (filter (unresolved env) (sortedNames (list_to_set l)))
           (extend w (EvLookPath <$> sortedNames (list_to_set l))).
Proof.
  unfold verify. rewrite <- skipRepeats_sortStrings.
  apply (verify_from (sortStrings l) (sortStrings l) [] [] w). done.
Qed.

Lemma printStdout_extend (text : string) (w : World) :
  printStdout text w = Return tt (extend w [EvStdout text]).
Proof. done. Qed.

(** The printing loop of [checkAllDeps] from index [length pre] on. *)
Lemma report_from (allDeps : list string) (max : nat) :
  ∀ (rest pre : list string) (ok : bool) (w : World),
    allDeps = pre ++ rest →
    forRange (λ i dep (ok : bool),
        if isDuplicate allDeps i then ret ok
        else found ← LookPath env dep;
             if negb found
             then printStdout ("  " ++ padString max dep ++ " not found" ++ nl);; ret false
             else printStdout ("  " ++ padString max dep ++ " ok" ++ nl);; ret ok)
      (length pre) rest ok w
    = Return (ok && forallb (lookPathFinds env) (skipRepeats (last pre) rest))
             (extend w (concat (reportEvents env max <$> skipRepeats (last pre) rest))).
Proof.
  induction rest as [|x rest IH]; intros pre ok w Hdeps; simpl.
  - unfold ret. by rewrite andb_true_r, extend_nil.
  - subst allDeps.
    assert (pre ++ x :: rest = (pre ++ [x]) ++ rest) as Hdeps' by by rewrite <- app_assoc.
    specialize (IH (pre ++ [x])). rewrite length_app, last_snoc in IH. simpl in IH.
    replace (length pre + 1) with (S (length pre)) in IH by lia.
    unfold bind at 1. rewrite isDuplicate_middle.
    case_bool_decide as Hdup.
    + unfold ret at 1. by rewrite IH.
    + unfold bind at 1. rewrite LookPath_extend. cbv beta.
      destruct (lookPathFinds env x) eqn:Hfound; cbn [negb];
        unfold bind at 1; rewrite printStdout_extend; unfold ret at 1;
        rewrite IH by done; rewrite !extend_extend;
        unfold reportEvents, reportLine; cbn [fmap list_fmap concat forallb app];
        rewrite Hfound, ?andb_false_r; done.
Qed.

(** *** The dependency sets *)

Lemma list_elem_of_concat {A} (ls : list (list A)) (x : A) :
  x ∈ concat ls ↔ ∃ l, l ∈ ls ∧ x ∈ l.
Proof.
  induction ls as [|l ls IH]; simpl.
  - split; [by intros ?%elem_of_nil|]. by intros (l & ?%elem_of_nil & _).
  - rewrite elem_of_app, IH. split.
    + intros [Hx|(l' & Hl' & Hx)]; [exists l; split; [by left|done]|].
      exists l'. split; [by right|done].
    + intros (l' & [->|Hl']%elem_of_cons & Hx); [by left|]. right. by exists l'.
Qed.

Lemma chainDeps_chain :
  ∀ cmd, chainDeps externalDeps cmd = concat (depsOf externalDeps <$> chain cmd).
Proof.
  fix IH 1. intros [p u r [c|]]; simpl.
  - by rewrite IH.
  - done.
Qed.

Lemma chain_self (cmd : Command) : cmd ∈ chain cmd.
Proof. destruct cmd. simpl. by left. Qed.

Lemma elem_of_chainSet (cmd : Command) (x : string) :
  x ∈ chainSet externalDeps cmd ↔ ∃ c, c ∈ chain cmd ∧ x ∈ depsOf externalDeps c.
Proof.
  unfold chainSet. rewrite elem_of_union_list. split.
  - intros (X & (c & -> & Hc)%list_elem_of_fmap & Hx).
    exists c. split; [done|]. by apply elem_of_list_to_set in Hx.
  - intros (c & Hc & Hx). exists (list_to_set (depsOf externalDeps c)). split.
    + apply list_elem_of_fmap. by exists c.
    + by apply elem_of_list_to_set.
Qed.

Lemma elem_of_chainDeps (cmd : Command) (x : string) :
  x ∈ chainDeps externalDeps cmd ↔ x ∈ chainSet externalDeps cmd.
Proof.
  rewrite chainDeps_chain, elem_of_chainSet, list_elem_of_concat. split.
  - intros (l & (c & -> & Hc)%list_elem_of_fmap & Hx). by exists c.
  - intros (c & Hc & Hx). exists (depsOf externalDeps c). split; [|done].
    apply list_elem_of_fmap. by exists c.
Qed.

Lemma list_to_set_chainDeps (cmd : Command) :
  list_to_set (chainDeps externalDeps cmd) = chainSet externalDeps cmd.
Proof. apply set_eq. intros x. by rewrite elem_of_list_to_set, elem_of_chainDeps. Qed.

Lemma elem_of_allSet (x : string) :
  x ∈ allSet externalDeps ↔ ∃ p deps, externalDeps !! p = Some deps ∧ x ∈ deps.
Proof.
  unfold allSet. rewrite elem_of_union_list. split.
  - intros (X & (deps & -> & Hd)%list_elem_of_fmap & Hx).
    apply list_elem_of_fmap in Hd as ([p deps'] & -> & Hp). simpl in *.
    exists p, deps'. split; [by apply elem_of_map_to_list|].
    by apply elem_of_list_to_set in Hx.
  - intros (p & deps & Hp & Hx). exists (list_to_set deps). split.
    + apply list_elem_of_fmap. exists deps. split; [done|].
      apply list_elem_of_fmap. exists (p, deps). split; [done|].
      by apply elem_of_map_to_list.
    + by apply elem_of_list_to_set.
Qed.

Lemma elem_of_allDeclared (x : string) :
  RangeVisitsEachOnce env →
  x ∈ allDeclared env externalDeps ↔ x ∈ allSet externalDeps.
Proof.
  intros Hrange. unfold allDeclared. unfold RangeVisitsEachOnce in Hrange.
  rewrite elem_of_allSet, list_elem_of_concat. split.
  - intros (deps & Hd & Hx). apply list_elem_of_fmap in Hd as ([p deps'] & -> & Hp).
    rewrite Hrange in Hp. exists p, deps'. split; [|done].
    by apply elem_of_map_to_list.
  - intros (p & deps & Hp & Hx). exists deps. split; [|done].
    apply list_elem_of_fmap. exists (p, deps). split; [done|].
    rewrite Hrange. by apply elem_of_map_to_list.
Qed.

Lemma list_to_set_allDeclared :
  RangeVisitsEachOnce env →
  list_to_set (allDeclared env externalDeps) = allSet externalDeps.
Proof.
  intros Hrange. apply set_eq. intros x.
  by rewrite elem_of_list_to_set, elem_of_allDeclared.
Qed.

(** *** The width of the name column *)

Lemma maxLen_from (l : list string) (acc : nat) :
  let m := fold_left (λ max dep, if (max <? String.length dep)%nat
                                 then String.length dep else max) l acc in
  (acc ≤ m)%nat ∧ (∀ x, x ∈ l → (String.length x ≤ m)%nat) ∧
  (m = acc ∨ ∃ x, x ∈ l ∧ String.length x = m).
Proof.
  revert acc. induction l as [|y l IH]; intros acc; simpl.
  - split; [done|]. split; [|by left]. by intros x ?%elem_of_nil.
  - destruct (IH (if (acc <? String.length y)%nat then String.length y else acc))
      as (Hacc & Hall & Hex).
    destruct (Nat.ltb_spec acc (String.length y)) as [Hlt|Hge].
    + split; [lia|]. split.
      * intros x [->|Hx]%elem_of_cons; [done|]. by apply Hall.
      * right. destruct Hex as [->|(x & Hx & Hm)].
        -- exists y. split; [by left|done].
        -- exists x. split; [by right|done].
    + split; [done|]. split.
      * intros x [->|Hx]%elem_of_cons; [lia|]. by apply Hall.
      * destruct Hex as [->|(x & Hx & Hm)]; [by left|].
        right. exists x. split; [by right|done].
Qed.

Lemma maxLen_bound (l : list string) (x : string) : x ∈ l → (String.length x ≤ maxLen l)%nat.
Proof. intros Hx. by apply (maxLen_from l 0). Qed.

Lemma maxLen_attained (l : list string) :
  l ≠ [] → ∃ x, x ∈ l ∧ String.length x = maxLen l.
Proof.
  intros Hne. destruct (maxLen_from l 0) as (_ & Hall & [H0|Hex]); [|done].
  destruct l as [|y l]; [done|]. exists y. split; [by left|].
  fold (maxLen (y :: l)) in H0, Hall. specialize (Hall y). rewrite H0 in *.
  assert (y ∈ y :: l) as Hy by by left. specialize (Hall Hy). lia.
Qed.

(** The width depends on the set of names only. *)
Lemma maxLen_ext (l l' : list string) : (∀ x, x ∈ l ↔ x ∈ l') → maxLen l = maxLen l'.
Proof.
  intros Heq. destruct l as [|y l], l' as [|y' l']; [done| | |].
  - exfalso. eapply not_elem_of_nil, Heq. by left.
  - exfalso. eapply not_elem_of_nil, Heq. by left.
  - destruct (maxLen_attained (y :: l)) as (x & Hx & Hm); [done|].
    destruct (maxLen_attained (y' :: l')) as (x' & Hx' & Hm'); [done|].
    apply Heq in Hx. apply Heq in Hx'.
    apply maxLen_bound in Hx, Hx'. lia.
Qed.

(** *** Runes *)




(** *** [fmt] on the formats of this package *)

Lemma string_app_nil_r (s : string) : (s ++ "")%string = s.
Proof.
  induction s as [|c s IH]; [done|].
  change (String c (s ++ "")%string = String c s). by f_equal.
Qed.

Lemma string_app_assoc (a b c : string) : ((a ++ b) ++ c = a ++ (b ++ c))%string.
Proof.
  induction a as [|x a IH]; [done|].
  change (String x ((a ++ b) ++ c) = String x (a ++ (b ++ c)))%string. by f_equal.
Qed.

Lemma Sprintf_fail (err : error) :
  Sprintf ("ERROR: %s" ++ nl) [err] = ("ERROR: " ++ goText err ++ nl)%string.
Proof. done. Qed.

Lemma Sprintf_failf (format : string) (a : list Value) :
  Sprintf (Sprintf ("ERROR: %s" ++ nl) [str format]) a
  = ("ERROR: " ++ Sprintf (format ++ nl) a)%string.
Proof. done. Qed.

Lemma Sprintf_version (v : string) :
  Sprintf ("Mixer %s" ++ nl) [str v] = ("Mixer " ++ v ++ nl)%string.
Proof. done. Qed.

Lemma Errorf_missing (missing : list string) :
  Errorf "missing following external programs: %s" [str (Join missing ", ")]
  = mkValue "*errors.fundamental"
            ("missing following external programs: " ++ Join missing ", ").
Proof. unfold Errorf. simpl. by rewrite string_app_nil_r. Qed.

(** *** [fail] and [failf] *)

Lemma fail_spec {A} (g : Globals) (err : error) (w : World) :
  fail (A:=A) g err w
  = Exited 1 (mkWorld (if bool_decide (cpuProfile g ≠ "") then false else profiling w)
                      (log w ++ (if bool_decide (cpuProfile g ≠ "")
                                 then [EvStopCPUProfile] else []) ++
                       [EvStderr ("ERROR: " ++ goText err ++ nl)])).
Proof.
  unfold fail. rewrite Sprintf_fail. unfold bind, emit, osExit, StopCPUProfile, ret.
  case_bool_decide; simpl; [by rewrite <- app_assoc|done].
Qed.

Lemma failf_spec {A} (g : Globals) (format : string) (a : list Value) (w : World) :
  failf (A:=A) g format a w
  = Exited 1 (extend w [EvStderr ("ERROR: " ++ Sprintf (format ++ nl) a)]).
Proof. unfold failf. by rewrite Sprintf_failf. Qed.

(** *** [checkCmdDeps] and [checkAllDeps] *)

Lemma checkCmdDeps_spec (cmd : Command) (w : World) :
  let names := sortedNames (chainSet externalDeps cmd) in
  checkCmdDeps env externalDeps cmd w
  = Return (missingError (filter (unresolved env) names))
           (extend w (EvLookPath <$> names)).
Proof.
  unfold checkCmdDeps. unfold bind at 1.
  rewrite verify_sorted, list_to_set_chainDeps. simpl.
  destruct (filter (unresolved env) (sortedNames (chainSet externalDeps cmd)))
    as [|x missing] eqn:Hm; [done|].
  unfold ret. cbn [length Nat.ltb Nat.leb]. by rewrite Errorf_missing.
Qed.

Lemma checkAllDeps_spec (w : World) :
  RangeVisitsEachOnce env →
  let names := sortedNames (allSet externalDeps) in
  checkAllDeps env externalDeps w
  = Return (forallb (lookPathFinds env) names)
           (extend w (EvStdout reportHeader ::
                      concat (reportEvents env (maxLen names) <$> names))).
Proof.
  intros Hrange names. unfold checkAllDeps. unfold bind at 1.
  rewrite printStdout_extend.
  pose proof (report_from (sortStrings (allDeclared env externalDeps))
    (maxLen (sortStrings (allDeclared env externalDeps)))
    (sortStrings (allDeclared env externalDeps)) [] true
    (extend w [EvStdout ("Programs used by Mixer commands:" ++ nl)]) eq_refl) as Hloop.
  simpl length in Hloop. simpl last in Hloop. rewrite Hloop. clear Hloop.
  rewrite skipRepeats_sortStrings, list_to_set_allDeclared by done.
  fold names. rewrite extend_extend.
  replace (maxLen (sortStrings (allDeclared env externalDeps))) with (maxLen names); [done|].
  apply maxLen_ext. intros x. unfold names.
  by rewrite sortedNames_elem_of, sortStrings_elem_of, elem_of_allDeclared.
Qed.

(** *** [PersistentPreRunE] *)

(** The profiling set-up, when it goes through, leaves
    [afterProfileSetup]; the hook then continues with the root's queries
    and the dependency check. *)
Lemma PersistentPreRunE_setup (g : Globals) (cmd : Command) (w : World) :
  profileSetupSucceeds env g w →
  PersistentPreRunE env externalDeps g cmd w
  = (match Parent cmd with
     | None =>
       (if version g
        then printStdout (Sprintf ("Mixer %s" ++ nl) [str (Version env)]);; osExit 0
        else ret tt);;
       (if check g
        then ok ← checkAllDeps env externalDeps;
             (if negb ok then osExit 1 else ret tt);;
             osExit 0
        else ret tt)
     | Some _ => ret tt
     end;;
     checkCmdDeps env externalDeps cmd) (afterProfileSetup g w).
Proof.
  intros Hsetup. unfold PersistentPreRunE, afterProfileSetup. unfold bind at 1.
  case_bool_decide as Hp.
  - destruct Hsetup as [?|[Hcreate Hoff]]; [done|].
    rewrite Hcreate. unfold bind at 1 2. rewrite emit_extend.
    unfold StartCPUProfile, extend. simpl. by rewrite Hoff, <- app_assoc.
  - done.
Qed.

Lemma PersistentPreRunE_reached (g : Globals) (cmd : Command) (w : World) :
  profileSetupSucceeds env g w →
  rootQuery g cmd = false →
  PersistentPreRunE env externalDeps g cmd w
  = checkCmdDeps env externalDeps cmd (afterProfileSetup g w).
Proof.
  intros Hsetup Hq. rewrite PersistentPreRunE_setup by done.
  unfold rootQuery in Hq. destruct (Parent cmd); [done|].
  apply orb_false_iff in Hq as [-> ->]. done.
Qed.

Lemma PersistentPreRunE_version (g : Globals) (cmd : Command) (w : World) :
  profileSetupSucceeds env g w →
  Parent cmd = None →
  version g = true →
  PersistentPreRunE env externalDeps g cmd w
  = Exited 0 (extend (afterProfileSetup g w)
                     [EvStdout ("Mixer " ++ Version env ++ nl)]).
Proof.
  intros Hsetup Hroot Hv. rewrite PersistentPreRunE_setup by done.
  rewrite Hroot, Hv. by rewrite Sprintf_version.
Qed.

Lemma PersistentPreRunE_check (g : Globals) (cmd : Command) (w : World) :
  RangeVisitsEachOnce env →
  profileSetupSucceeds env g w →
  Parent cmd = None →
  version g = false →
  check g = true →
  let names := sortedNames (allSet externalDeps) in
  PersistentPreRunE env externalDeps g cmd w
  = Exited (if forallb (lookPathFinds env) names then 0 else 1)
           (extend (afterProfileSetup g w)
                   (EvStdout reportHeader ::
                    concat (reportEvents env (maxLen names) <$> names))).
Proof.
  intros Hrange Hsetup Hroot Hv Hc names. rewrite PersistentPreRunE_setup by done.
  rewrite Hroot, Hv, Hc. unfold bind at 1 2 3. unfold ret at 1.
  rewrite checkAllDeps_spec by done. fold names.
  by destruct (forallb (lookPathFinds env) names).
Qed.

Lemma PersistentPreRunE_createFails (g : Globals) (cmd : Command) (w : World) (err : error) :
  cpuProfile g ≠ "" →
  createFails env (cpuProfile g) = Some err →
  PersistentPreRunE env externalDeps g cmd w
  = Exited 1 (extend w [EvStderr ("ERROR: couldn't create file for CPU profile: "
                                  ++ goText err ++ nl)]).
Proof.
  intros Hp Hcreate. unfold PersistentPreRunE. unfold bind at 1.
  rewrite bool_decide_eq_true_2 by done. rewrite Hcreate.
  unfold bind at 1. by rewrite failf_spec.
Qed.

(** *** [Execute] *)

Lemma Execute_exited (g : Globals) (cmd : Command) (w w' : World) (status : Z) :
  PersistentPreRunE env externalDeps g cmd w = Exited status w' →
  Execute env externalDeps g cmd w = Exited status w'.
Proof. intros H. unfold Execute, cobraExecute, bind. by rewrite H. Qed.

Lemma Execute_guard_error (g : Globals) (cmd : Command) (w w' : World) (e : error) :
  PersistentPreRunE env externalDeps g cmd w = Return (Some e) w' →
  Execute env externalDeps g cmd w
  = Exited 1 (extend w' [EvStderr ("Error: " ++ goText e ++ nl);
                         EvStderr (usageString env (ptr cmd) ++ nl)]).
Proof.
  intros H. unfold Execute, cobraExecute, bind. rewrite H.
  unfold emit, ret, osExit, extend. simpl. by rewrite <- app_assoc.
Qed.

Lemma Execute_guard_ok (g : Globals) (cmd : Command) (w w' : World) :
  PersistentPreRunE env externalDeps g cmd w = Return None w' →
  Execute env externalDeps g cmd w
  = (Run cmd env g;; PersistentPostRun g) (extend w' [EvRun (ptr cmd)]).
Proof.
  intros H. unfold Execute, cobraExecute, bind. rewrite H. rewrite emit_extend.
  destruct (Run cmd env g (extend w' [EvRun (ptr cmd)])) as [[] w1|s w1]; [|done].
  unfold ret. by destruct (PersistentPostRun g w1) as [[] w2|s w2].
Qed.

End Guard.

(** * The claims *)

(** ** The exit protocol and the profiling scope *)

(** [fail] stops the capture, when a destination is configured, before it
    writes its line. *)
Lemma fail_releases_capture {A} (g : Globals) (err : error) (w : World) :
  cpuProfile g ≠ "" →
  fail (A:=A) g err w
  = Exited 1 (mkWorld false (log w ++ [EvStopCPUProfile;
                                       EvStderr ("ERROR: " ++ goText err ++ nl)])).
Proof. intros Hp. rewrite fail_spec. by rewrite !bool_decide_eq_true_2 by done. Qed.

(** [failf] never touches the profiler: it exits in the profiling state
    it was called in. *)
Lemma failf_keeps_profiling {A} (g : Globals) (format : string) (a : list Value) (w : World) :
  profiling (worldOf (failf (A:=A) g format a w)) = profiling w.
Proof. by rewrite failf_spec. Qed.

(** C1 (code defect).  With profiling configured and the capture running,
    [fail] stops the capture and then writes its line, whereas [failf], as
    [runAddRPM] calls it, writes its line and exits with status 1 while the
    capture is still running: it never calls [pprof.StopCPUProfile]. *)
Theorem failf_exits_with_capture_running :
  fail (A:=unit) (invocation false false "cpu.prof")
       (mkValue "*errors.errorString" "no such config") capturing
  = Exited 1 (mkWorld false [EvCreate "cpu.prof"; EvStartCPUProfile; EvStopCPUProfile;
                             EvStderr ("ERROR: no such config" ++ nl)])
  ∧ failf (A:=unit) (invocation false false "cpu.prof")
          "RPMDIR not set in configuration" [] capturing
    = Exited 1 (mkWorld true [EvCreate "cpu.prof"; EvStartCPUProfile;
                              EvStderr ("ERROR: RPMDIR not set in configuration" ++ nl)]).
Proof. split; reflexivity. Qed.

(** Any abort by the dependency check leaves the capture that the hook
    started running: neither the hook, cobra nor [Execute] stops it. *)
Lemma guard_abort_keeps_capture (env : Env) (externalDeps : gmap positive (list string))
    (g : Globals) (cmd : Command) (w : World) (x : string) :
  cpuProfile g ≠ "" →
  profileSetupSucceeds env g w →
  rootQuery g cmd = false →
  x ∈ chainSet externalDeps cmd →
  unresolved env x →
  ∃ w', Execute env externalDeps g cmd w = Exited 1 w' ∧ profiling w' = true.
Proof.
  intros Hp Hsetup Hq Hx Hun.
  pose proof (PersistentPreRunE_reached env externalDeps g cmd w Hsetup Hq) as Hpre.
  rewrite checkCmdDeps_spec in Hpre.
  destruct (filter (unresolved env) (sortedNames (chainSet externalDeps cmd)))
    as [|y missing] eqn:Hm.
  - exfalso. apply (not_elem_of_nil x). rewrite <- Hm.
    apply list_elem_of_filter. split; [done|]. by apply sortedNames_elem_of.
  - simpl in Hpre. eexists. split; [by apply Execute_guard_error|].
    unfold afterProfileSetup. by rewrite bool_decide_eq_true_2.
Qed.

(** C2 (code defect).  [mixer --cpu-profile cpu.prof init] on a host
    without [git]: the hook starts the capture, the dependency check
    fails, cobra reports the error and [Execute] exits with status 1; the
    capture is never stopped. *)
Theorem missing_dependency_abort_leaves_capture_running :
  Execute bareHost externalDeps (invocation false false "cpu.prof") initCmd fresh
  = Exited 1 (mkWorld true [EvCreate "cpu.prof"; EvStartCPUProfile; EvLookPath "git";
                            EvStderr ("Error: missing following external programs: git" ++ nl);
                            EvStderr ("Usage: mixer [command]" ++ nl)]).
Proof. vm_compute. reflexivity. Qed.

(** ** [add-rpms] *)

(** C10.  When [builder.NewFromConfig] succeeds and the builder's
    [RPMdir] is empty, [runAddRPM], the [Run] of [add-rpms], writes
    [ERROR: RPMDIR not set in configuration] and exits with status 1; it
    has neither read a directory nor called [AddRPMList]. *)
Theorem runAddRPM_requires_RPMDIR (env : Env) (g : Globals) (w : World) (b : Builder) :
  newFromConfig env (config g) = inl b →
  RPMdir b = "" →
  Run addRPMCmd env g w
  = Exited 1 (extend w [EvNewFromConfig (config g);
                        EvStderr ("ERROR: RPMDIR not set in configuration" ++ nl)]).
Proof.
  intros Hnew Hdir. simpl. unfold runAddRPM. unfold bind at 1 2 3. rewrite emit_extend, Hnew.
  unfold ret at 1. rewrite bool_decide_eq_true_2 by done.
  rewrite failf_spec, extend_extend. done.
Qed.

Lemma runAddRPM_requires_RPMDIR_witness :
  newFromConfig bareHost (config (invocation false false "")) = inl (mkBuilder "")
  ∧ RPMdir (mkBuilder "") = ""
  ∧ Run addRPMCmd bareHost (invocation false false "") fresh
    = Exited 1 (extend fresh [EvNewFromConfig (config (invocation false false ""));
                             EvStderr ("ERROR: RPMDIR not set in configuration" ++ nl)]).
Proof.
  split; [reflexivity|]. split; [reflexivity|].
  apply (runAddRPM_requires_RPMDIR bareHost (invocation false false "") fresh (mkBuilder ""));
    reflexivity.
Defined.

(** ** The two queries of the root command *)

(** C9, as stated, fails: [mixer --version --check --cpu-profile cpu.prof]
    in a directory where the file cannot be created writes the error of
    the profiling set-up and exits with status 1; no version line is
    printed. *)
Lemma version_and_check_profile_file_refused :
  version (invocation true true "cpu.prof") = true
  ∧ check (invocation true true "cpu.prof") = true
  ∧ Execute readOnlyHost externalDeps (invocation true true "cpu.prof") RootCmd fresh
    = Exited 1 (mkWorld false
        [EvStderr ("ERROR: couldn't create file for CPU profile: " ++
                   "open cpu.prof: permission denied" ++ nl)]).
Proof. split; [reflexivity|]. split; [reflexivity|]. vm_compute. reflexivity. Qed.

(** C9, amended.  When the root command runs with both the version flag
    and the global-check flag and the profiling set-up goes through, the
    version line is all that follows: the process exits with status 0
    without a lookup and without the table of the global check. *)
Theorem version_precedes_check (env : Env) (externalDeps : gmap positive (list string))
    (g : Globals) (cmd : Command) (w : World) :
  profileSetupSucceeds env g w →
  Parent cmd = None →
  version g = true →
  check g = true →
  Execute env externalDeps g cmd w
  = Exited 0 (extend (afterProfileSetup g w) [EvStdout ("Mixer " ++ Version env ++ nl)]).
Proof.
  intros Hsetup Hroot Hv _. apply Execute_exited. by apply PersistentPreRunE_version.
Qed.

Lemma version_precedes_check_witness :
  profileSetupSucceeds bareHost (invocation true true "cpu.prof") fresh
  ∧ Parent RootCmd = None
  ∧ version (invocation true true "cpu.prof") = true
  ∧ check (invocation true true "cpu.prof") = true
  ∧ Execute bareHost externalDeps (invocation true true "cpu.prof") RootCmd fresh
    = Exited 0 (extend (afterProfileSetup (invocation true true "cpu.prof") fresh)
                       [EvStdout ("Mixer " ++ Version bareHost ++ nl)]).
Proof.
  assert (profileSetupSucceeds bareHost (invocation true true "cpu.prof") fresh) as Hsetup
    by (right; split; reflexivity).
  split; [exact Hsetup|]. split; [reflexivity|]. split; [reflexivity|]. split; [reflexivity|].
  apply (version_precedes_check bareHost externalDeps (invocation true true "cpu.prof")
           RootCmd fresh Hsetup); reflexivity.
Defined.

(** C6, as stated, fails: [mixer --version --cpu-profile cpu.prof] in a
    directory where the file cannot be created exits with status 1 from
    the profiling set-up; the version query never runs. *)
Lemma version_query_profile_file_refused :
  version (invocation true false "cpu.prof") = true
  ∧ Parent RootCmd = None
  ∧ Execute readOnlyHost externalDeps (invocation true false "cpu.prof") RootCmd fresh
    = Exited 1 (mkWorld false
        [EvStderr ("ERROR: couldn't create file for CPU profile: " ++
                   "open cpu.prof: permission denied" ++ nl)]).
Proof. split; [reflexivity|]. split; [reflexivity|]. vm_compute. reflexivity. Qed.

(** C6, amended.  When the root command runs with the version flag or
    the global-check flag and the profiling set-up goes through, the
    query runs and ends the process inside the pre-run hook, before
    [checkCmdDeps]: with the version flag the version line is printed and
    the status is 0, with no lookup at all; with the check flag alone the
    process does the global check and nothing after it, and exits with 0
    when every registered name resolved and with 1 otherwise.  This holds
    on every host, also where no declared program resolves. *)
Theorem root_queries_bypass_dependency_check (env : Env)
    (externalDeps : gmap positive (list string)) (g : Globals) (cmd : Command) (w : World) :
  RangeVisitsEachOnce env →
  profileSetupSucceeds env g w →
  Parent cmd = None →
  (version g = true →
   Execute env externalDeps g cmd w
   = Exited 0 (extend (afterProfileSetup g w) [EvStdout ("Mixer " ++ Version env ++ nl)]))
  ∧ (version g = false → check g = true →
     Execute env externalDeps g cmd w
     = (ok ← checkAllDeps env externalDeps;
        osExit (if ok then 0 else 1)) (afterProfileSetup g w)
     ∧ ∃ w', Execute env externalDeps g cmd w
             = Exited (if forallb (lookPathFinds env) (sortedNames (allSet externalDeps))
                       then 0 else 1) w').
Proof.
  intros Hrange Hsetup Hroot. split.
  - intros Hv. apply Execute_exited. by apply PersistentPreRunE_version.
  - intros Hv Hc.
    pose proof (PersistentPreRunE_check env externalDeps g cmd w Hrange Hsetup Hroot Hv Hc)
      as Hpre. simpl in Hpre. apply Execute_exited in Hpre. split; [|by eexists].
    rewrite Hpre. unfold bind. rewrite checkAllDeps_spec by done. simpl.
    by destruct (forallb _ _).
Qed.

Lemma root_queries_bypass_dependency_check_witness :
  RangeVisitsEachOnce bareHost
  ∧ profileSetupSucceeds bareHost (invocation false true "") fresh
  ∧ Parent RootCmd = None
  ∧ version (invocation false true "") = false
  ∧ check (invocation false true "") = true
  ∧ ∃ w', Execute bareHost externalDeps (invocation false true "") RootCmd fresh
          = Exited (if forallb (lookPathFinds bareHost) (sortedNames (allSet externalDeps))
                    then 0 else 1) w'.
Proof.
  assert (RangeVisitsEachOnce bareHost) as Hrange by (intros l; apply reverse_Permutation).
  assert (profileSetupSucceeds bareHost (invocation false true "") fresh) as Hsetup
    by (left; reflexivity).
  split; [exact Hrange|]. split; [exact Hsetup|]. split; [reflexivity|].
  split; [reflexivity|]. split; [reflexivity|].
  apply (root_queries_bypass_dependency_check bareHost externalDeps (invocation false true "")
           RootCmd fresh Hrange Hsetup eq_refl); reflexivity.
Defined.

(** ** The dependency check *)

Lemma lookedUp_reportEvents (env : Env) (wid : nat) (names : list string) :
  lookedUp (concat (reportEvents env wid <$> names)) = names.
Proof. induction names as [|x names IH]; simpl; [done|]. by f_equal. Qed.

Lemma sortedNames_empty : sortedNames ∅ = [].
Proof. unfold sortedNames. by rewrite elements_empty. Qed.


(** C3.  The names that [checkCmdDeps] looks up are the members of the
    ancestor closure of the command, each once, in increasing order; those
    that [checkAllDeps] looks up are the members of the union over the
    whole registry, each once, in increasing order, in whatever order
    [range] visits the map.  Both lists are functions of the set alone, so
    neither the number of declarations of a name nor any order of
    declaration or iteration shows in them. *)
Theorem checked_names_are_deduplicated_union (env : Env)
    (externalDeps : gmap positive (list string)) (cmd : Command) (w : World) :
  RangeVisitsEachOnce env →
  (lookedUp (log (worldOf (checkCmdDeps env externalDeps cmd w)))
   = lookedUp (log w) ++ sortedNames (chainSet externalDeps cmd)
   ∧ NoDup (sortedNames (chainSet externalDeps cmd))
   ∧ ∀ x, x ∈ sortedNames (chainSet externalDeps cmd)
          ↔ ∃ c, c ∈ chain cmd ∧ x ∈ depsOf externalDeps c)
  ∧ (lookedUp (log (worldOf (checkAllDeps env externalDeps w)))
     = lookedUp (log w) ++ sortedNames (allSet externalDeps)
     ∧ NoDup (sortedNames (allSet externalDeps))
     ∧ ∀ x, x ∈ sortedNames (allSet externalDeps)
            ↔ ∃ p deps, externalDeps !! p = Some deps ∧ x ∈ deps).
Proof.
  intros Hrange. split; split.
  - rewrite checkCmdDeps_spec. simpl. by rewrite lookedUp_app, lookedUp_LookPath.
  - split; [apply sortedNames_NoDup|].
    intros x. by rewrite sortedNames_elem_of, elem_of_chainSet.
  - rewrite checkAllDeps_spec by done. simpl.
    by rewrite lookedUp_app; simpl; rewrite lookedUp_reportEvents.
  - split; [apply sortedNames_NoDup|].
    intros x. by rewrite sortedNames_elem_of, elem_of_allSet.
Qed.

Lemma checked_names_are_deduplicated_union_witness :
  RangeVisitsEachOnce bareHost
  ∧ lookedUp (log (worldOf (checkCmdDeps bareHost externalDeps addRPMCmd fresh)))
    = lookedUp (log fresh) ++ sortedNames (chainSet externalDeps addRPMCmd).
Proof.
  assert (RangeVisitsEachOnce bareHost) as Hrange by (intros l; apply reverse_Permutation).
  split; [exact Hrange|].
  apply (checked_names_are_deduplicated_union bareHost externalDeps addRPMCmd fresh Hrange).
Defined.




Lemma cobra_error_line (names : string) :
  ("Error: " ++ ("missing following external programs: " ++ names) ++ nl)%string
  = ("Error: missing following external programs: " ++ names ++ nl)%string.
Proof. by rewrite string_app_assoc. Qed.

(** C8.  When the invocation reaches the dependency check and some name
    of the command's ancestor closure does not resolve, the process looks
    the names up, writes cobra's error line with the missing names and
    the usage, and exits with status 1; the command's [Run] is not
    called. *)
Theorem missing_dependency_aborts_before_action (env : Env)
    (externalDeps : gmap positive (list string)) (g : Globals) (cmd : Command)
    (w : World) (x : string) :
  profileSetupSucceeds env g w →
  rootQuery g cmd = false →
  x ∈ chainSet externalDeps cmd →
  unresolved env x →
  let names := sortedNames (chainSet externalDeps cmd) in
  let missing := filter (unresolved env) names in
  Execute env externalDeps g cmd w
  = Exited 1 (extend (afterProfileSetup g w)
                ((EvLookPath <$> names) ++
                 [EvStderr ("Error: missing following external programs: "
                            ++ Join missing ", " ++ nl);
                  EvStderr (usageString env (ptr cmd) ++ nl)]))
  ∧ ∀ c, EvRun c ∈ log (worldOf (Execute env externalDeps g cmd w)) → EvRun c ∈ log w.
Proof.
  intros Hsetup Hq Hx Hun names missing.
  pose proof (PersistentPreRunE_reached env externalDeps g cmd w Hsetup Hq) as Hpre.
  rewrite checkCmdDeps_spec in Hpre. fold names in Hpre. fold missing in Hpre.
  assert (x ∈ missing) as Hxm.
  { apply list_elem_of_filter. split; [done|]. by apply sortedNames_elem_of. }
  destruct missing as [|y missing'] eqn:Hm; [by apply elem_of_nil in Hxm|].
  unfold missingError in Hpre. apply Execute_guard_error in Hpre.
  cbn [goText] in Hpre. rewrite cobra_error_line in Hpre. rewrite Hpre.
  rewrite extend_extend. split; [done|].
  intros c. simpl. rewrite !elem_of_app.
  intros [Hc|[Hc|Hc]].
  - unfold afterProfileSetup in Hc. case_bool_decide; [|done]. simpl in Hc.
    apply elem_of_app in Hc as [Hc|Hc]; [done|].
    apply elem_of_cons in Hc as [Hc|Hc]; [done|].
    apply elem_of_cons in Hc as [Hc|Hc]; [done|]. by apply elem_of_nil in Hc.
  - by apply list_elem_of_fmap in Hc as (? & ? & _).
  - apply elem_of_cons in Hc as [Hc|Hc]; [done|].
    apply elem_of_cons in Hc as [Hc|Hc]; [done|]. by apply elem_of_nil in Hc.
Qed.

Lemma missing_dependency_aborts_before_action_witness :
  profileSetupSucceeds gitHost (invocation false false "") fresh
  ∧ rootQuery (invocation false false "") addRPMCmd = false
  ∧ "hardlink" ∈ chainSet externalDeps addRPMCmd
  ∧ unresolved gitHost "hardlink"
  ∧ Execute gitHost externalDeps (invocation false false "") addRPMCmd fresh
    = Exited 1 (extend (afterProfileSetup (invocation false false "") fresh)
                  ((EvLookPath <$> sortedNames (chainSet externalDeps addRPMCmd)) ++
                   [EvStderr ("Error: missing following external programs: "
                              ++ Join (filter (unresolved gitHost)
                                         (sortedNames (chainSet externalDeps addRPMCmd))) ", "
                              ++ nl);
                    EvStderr (usageString gitHost (ptr addRPMCmd) ++ nl)])).
Proof.
  assert (profileSetupSucceeds gitHost (invocation false false "") fresh) as Hsetup
    by (left; reflexivity).
  assert ("hardlink" ∈ chainSet externalDeps addRPMCmd) as Hin.
  { apply elem_of_chainSet. exists addRPMCmd. split; [apply chain_self|].
    apply elem_of_cons. right. apply elem_of_cons. by left. }
  split; [exact Hsetup|]. split; [reflexivity|]. split; [exact Hin|]. split; [reflexivity|].
  apply (missing_dependency_aborts_before_action gitHost externalDeps
           (invocation false false "") addRPMCmd fresh "hardlink" Hsetup eq_refl Hin eq_refl).
Defined.

(** ** The global check *)



(** The table of [mixer --check] on a host that has [git] only. *)
Example global_check_git_only :
  Execute gitHost externalDeps (invocation false true "") RootCmd fresh
  = Exited 1 (mkWorld false
      [EvStdout ("Programs used by Mixer commands:" ++ nl);
       EvLookPath "createrepo_c"; EvStdout ("  createrepo_c not found" ++ nl);
       EvLookPath "git";          EvStdout ("  git          ok" ++ nl);
       EvLookPath "hardlink";     EvStdout ("  hardlink     not found" ++ nl)]).
Proof. vm_compute. reflexivity. Qed.

(** * Further properties of the package *)

(** ** [fail] *)

(** [fail] ends the process with status 1 after one line on the error
    stream.  With a profile destination configured it has stopped the
    capture before that line; with none it leaves the profiler alone. *)
Theorem fail_stops_capture_then_reports (g : Globals) (err : error) (w : World) :
  (cpuProfile g ≠ "" →
   fail (A:=unit) g err w
   = Exited 1 (mkWorld false (log w ++ [EvStopCPUProfile;
                                        EvStderr ("ERROR: " ++ goText err ++ nl)])))
  ∧ (cpuProfile g = "" →
     fail (A:=unit) g err w
     = Exited 1 (extend w [EvStderr ("ERROR: " ++ goText err ++ nl)])).
Proof.
  rewrite fail_spec. split; intros Hp.
  - by rewrite !bool_decide_eq_true_2 by done.
  - rewrite !bool_decide_eq_false_2 by (by intros []). done.
Qed.

Lemma fail_stops_capture_then_reports_witness :
  cpuProfile (invocation false false "cpu.prof") ≠ ""
  ∧ fail (A:=unit) (invocation false false "cpu.prof") (str "boom") capturing
    = Exited 1 (mkWorld false (log capturing ++ [EvStopCPUProfile;
                                                 EvStderr ("ERROR: " ++ goText (str "boom") ++ nl)])).
Proof.
  assert (cpuProfile (invocation false false "cpu.prof") ≠ "") as Hp by done.
  split; [exact Hp|].
  apply (fail_stops_capture_then_reports (invocation false false "cpu.prof") (str "boom")
           capturing); exact Hp.
Defined.

(** ** [runAddRPM] on every path *)

(** Two worlds written differently: the same profiler state and the same
    log up to the bracketing of its concatenations. *)
Ltac same_world :=
  unfold extend; cbn [profiling log]; rewrite <- ?app_assoc; reflexivity.

(** Membership [H] of an event in the log an outcome leaves: either the
    event was in the log before, which closes the goal on the left, or it
    is one of the events added, which are tried in turn. *)
Ltac in_new_events H :=
  cbn [worldOf extend log] in H;
  repeat case_bool_decide;
  repeat (rewrite elem_of_app in H || rewrite elem_of_cons in H
          || rewrite elem_of_nil in H);
  destruct_or! H; try discriminate H; try (by left); try (by destruct H).

(** What [runAddRPM] does, by the answers of its collaborators. *)
Lemma runAddRPM_cases (env : Env) (g : Globals) (w : World) :
  runAddRPM env g w
  = match newFromConfig env (config g) with
    | inr err => fail g err (extend w [EvNewFromConfig (config g)])
    | inl b =>
      if bool_decide (RPMdir b = "")
      then Exited 1 (extend w [EvNewFromConfig (config g);
                               EvStderr ("ERROR: RPMDIR not set in configuration" ++ nl)])
      else match readDir env (RPMdir b) with
           | inr err =>
             Exited 1 (extend w [EvNewFromConfig (config g); EvReadDir (RPMdir b);
                                 EvStderr ("ERROR: cannot read RPMDIR: " ++ goText err ++ nl)])
           | inl rpms =>
             match addRPMList env b rpms with
             | Some err =>
               fail g err (extend w [EvNewFromConfig (config g); EvReadDir (RPMdir b);
                                     EvAddRPMList rpms])
             | None =>
               Return tt (extend w [EvNewFromConfig (config g); EvReadDir (RPMdir b);
                                    EvAddRPMList rpms])
             end
           end
    end.
Proof.
  unfold runAddRPM, bind, emit, ret.
  destruct (newFromConfig env (config g)) as [b|err]; [|by rewrite !fail_spec].
  case_bool_decide as Hdir; [rewrite failf_spec; same_world|].
  destruct (readDir env (RPMdir b)) as [rpms|err]; [|rewrite failf_spec; same_world].
  destruct (addRPMList env b rpms); [rewrite !fail_spec|]; same_world.
Qed.

(** When the configuration loads, names an RPM directory that can be
    read, and [AddRPMList] accepts its entries, [runAddRPM] returns after
    exactly these three calls, the entries read being the ones added; it
    writes nothing and does not touch the profiler. *)
Theorem runAddRPM_adds_directory_entries (env : Env) (g : Globals) (w : World)
    (b : Builder) (rpms : list string) :
  newFromConfig env (config g) = inl b →
  RPMdir b ≠ "" →
  readDir env (RPMdir b) = inl rpms →
  addRPMList env b rpms = None →
  Run addRPMCmd env g w
  = Return tt (extend w [EvNewFromConfig (config g); EvReadDir (RPMdir b);
                         EvAddRPMList rpms]).
Proof.
  intros Hnew Hdir Hread Hadd. simpl. rewrite runAddRPM_cases, Hnew.
  rewrite bool_decide_eq_false_2 by done. by rewrite Hread, Hadd.
Qed.

Lemma runAddRPM_adds_directory_entries_witness :
  newFromConfig rpmHost (config (invocation false false "")) = inl (mkBuilder "rpms")
  ∧ RPMdir (mkBuilder "rpms") ≠ ""
  ∧ readDir rpmHost (RPMdir (mkBuilder "rpms")) = inl ["a.rpm"; "b.rpm"]
  ∧ addRPMList rpmHost (mkBuilder "rpms") ["a.rpm"; "b.rpm"] = None
  ∧ Run addRPMCmd rpmHost (invocation false false "") fresh
    = Return tt (extend fresh [EvNewFromConfig (config (invocation false false ""));
                              EvReadDir (RPMdir (mkBuilder "rpms"));
                              EvAddRPMList ["a.rpm"; "b.rpm"]]).
Proof.
  assert (RPMdir (mkBuilder "rpms") ≠ "") as Hdir by done.
  split; [reflexivity|]. split; [exact Hdir|]. split; [reflexivity|]. split; [reflexivity|].
  apply (runAddRPM_adds_directory_entries rpmHost (invocation false false "") fresh
           (mkBuilder "rpms") ["a.rpm"; "b.rpm"] eq_refl Hdir eq_refl eq_refl).
Defined.

(** [runAddRPM] hands the errors of its collaborators on unchanged and
    ends the process with status 1 at the first of them: the error of
    [NewFromConfig] and that of [AddRPMList] through [fail], that of
    [ReadDir] after the words [cannot read RPMDIR: ]; no later call is
    made. *)
Theorem runAddRPM_forwards_errors (env : Env) (g : Globals) (w : World) :
  (∀ err, newFromConfig env (config g) = inr err →
     runAddRPM env g w = fail g err (extend w [EvNewFromConfig (config g)]))
  ∧ (∀ b err, newFromConfig env (config g) = inl b → RPMdir b ≠ "" →
       readDir env (RPMdir b) = inr err →
       runAddRPM env g w
       = Exited 1 (extend w [EvNewFromConfig (config g); EvReadDir (RPMdir b);
                             EvStderr ("ERROR: cannot read RPMDIR: " ++ goText err ++ nl)]))
  ∧ (∀ b rpms err, newFromConfig env (config g) = inl b → RPMdir b ≠ "" →
       readDir env (RPMdir b) = inl rpms → addRPMList env b rpms = Some err →
       runAddRPM env g w
       = fail g err (extend w [EvNewFromConfig (config g); EvReadDir (RPMdir b);
                               EvAddRPMList rpms])).
Proof.
  rewrite runAddRPM_cases. split; [|split].
  - by intros err ->.
  - intros b err -> Hdir ->. by rewrite bool_decide_eq_false_2.
  - intros b rpms err -> Hdir -> ->. by rewrite bool_decide_eq_false_2.
Qed.

Lemma runAddRPM_forwards_errors_witness :
  newFromConfig unreadableDirHost (config (invocation false false "")) = inl (mkBuilder "rpms")
  ∧ RPMdir (mkBuilder "rpms") ≠ ""
  ∧ readDir unreadableDirHost (RPMdir (mkBuilder "rpms"))
    = inr (mkValue "*os.PathError" "open rpms: permission denied")
  ∧ runAddRPM unreadableDirHost (invocation false false "") fresh
    = Exited 1 (extend fresh
        [EvNewFromConfig (config (invocation false false ""));
         EvReadDir (RPMdir (mkBuilder "rpms"));
         EvStderr ("ERROR: cannot read RPMDIR: "
                   ++ goText (mkValue "*os.PathError" "open rpms: permission denied") ++ nl)]).
Proof.
  assert (RPMdir (mkBuilder "rpms") ≠ "") as Hdir by done.
  split; [reflexivity|]. split; [exact Hdir|]. split; [reflexivity|].
  exact (proj1 (proj2 (runAddRPM_forwards_errors unreadableDirHost
                         (invocation false false "") fresh))
           (mkBuilder "rpms") (mkValue "*os.PathError" "open rpms: permission denied")
           eq_refl Hdir eq_refl).
Defined.

(** [runAddRPM] calls [AddRPMList] at most with the entries that
    [ReadDir] returned for the directory of a configuration that loaded
    and names one: an [AddRPMList] in the log that was not there before
    has these causes. *)
Theorem runAddRPM_adds_nothing_else (env : Env) (g : Globals) (w : World)
    (rpms : list string) :
  EvAddRPMList rpms ∈ log (worldOf (runAddRPM env g w)) →
  EvAddRPMList rpms ∈ log w
  ∨ ∃ b, newFromConfig env (config g) = inl b ∧ RPMdir b ≠ ""
         ∧ readDir env (RPMdir b) = inl rpms.
Proof.
  rewrite runAddRPM_cases. intros Hin.
  destruct (newFromConfig env (config g)) as [b|err] eqn:Hnew.
  - case_bool_decide as Hdir; [by in_new_events Hin|].
    destruct (readDir env (RPMdir b)) as [rpms'|err] eqn:Hread; [|by in_new_events Hin].
    destruct (addRPMList env b rpms') as [err|]; rewrite ?fail_spec in Hin;
      in_new_events Hin; injection Hin as ->; right; by exists b.
  - rewrite fail_spec in Hin. by in_new_events Hin.
Qed.

Lemma runAddRPM_adds_nothing_else_witness :
  EvAddRPMList ["a.rpm"; "b.rpm"]
    ∈ log (worldOf (runAddRPM rpmHost (invocation false false "") fresh))
  ∧ (EvAddRPMList ["a.rpm"; "b.rpm"] ∈ log fresh
     ∨ ∃ b, newFromConfig rpmHost (config (invocation false false "")) = inl b
            ∧ RPMdir b ≠ "" ∧ readDir rpmHost (RPMdir b) = inl ["a.rpm"; "b.rpm"]).
Proof.
  assert (EvAddRPMList ["a.rpm"; "b.rpm"]
            ∈ log (worldOf (runAddRPM rpmHost (invocation false false "") fresh))) as Hin.
  { vm_compute. apply elem_of_cons. right. apply elem_of_cons. right.
    apply elem_of_cons. by left. }
  split; [exact Hin|].
  apply (runAddRPM_adds_nothing_else rpmHost (invocation false false "") fresh
           ["a.rpm"; "b.rpm"] Hin).
Defined.

(** ** [mixer init] *)

(** What [runInit] does, by the answers of the builder. *)
Lemma runInit_cases (env : Env) (g : Globals) (w : World) :
  let f := initFlags g in
  runInit env g w
  = match (if bool_decide (config g = "")
           then createDefaultConfig env (localrpms g) else None) with
    | Some err => fail g err (extend w [EvCreateDefaultConfig (localrpms g)])
    | None =>
      match loadBuilderConf env (config g) with
      | Some err => fail g err (extend w (initPrelude g))
      | None =>
        match readBuilderConf env with
        | Some err => fail g err (extend w (initPrelude g ++ [EvReadBuilderConf]))
        | None =>
          let call := EvInitMix (Itoa (clearver f)) (Itoa (mixver f)) (all f) (upstreamurl f) in
          match initMix env (Itoa (clearver f)) (Itoa (mixver f)) (all f) (upstreamurl f) with
          | Some err => fail g err (extend w (initPrelude g ++ [EvReadBuilderConf; call]))
          | None => Return tt (extend w (initPrelude g ++ [EvReadBuilderConf; call]))
          end
        end
      end
    end.
Proof.
  unfold runInit, initPrelude, bind, emit, ret.
  case_bool_decide as Hcfg.
  - destruct (createDefaultConfig env (localrpms g)); [by rewrite !fail_spec|].
    destruct (loadBuilderConf env (config g)); [rewrite !fail_spec; same_world|].
    destruct (readBuilderConf env); [rewrite !fail_spec; same_world|].
    destruct (initMix env _ _ _ _); [rewrite !fail_spec|]; same_world.
  - destruct (loadBuilderConf env (config g)); [rewrite !fail_spec; same_world|].
    destruct (readBuilderConf env); [rewrite !fail_spec; same_world|].
    destruct (initMix env _ _ _ _); [rewrite !fail_spec|]; same_world.
Qed.

(** When every call of the builder succeeds, [runInit] returns after
    creating the default configuration (only if no configuration file was
    given), loading the configuration, reading it and initialising the
    mix with the two version numbers in decimal, the all-bundles flag and
    the upstream URL, in this order; it writes nothing. *)
Theorem runInit_initialises_mix (env : Env) (g : Globals) (w : World) :
  (config g = "" → createDefaultConfig env (localrpms g) = None) →
  loadBuilderConf env (config g) = None →
  readBuilderConf env = None →
  initMix env (Itoa (clearver (initFlags g))) (Itoa (mixver (initFlags g)))
          (all (initFlags g)) (upstreamurl (initFlags g)) = None →
  Run initCmd env g w
  = Return tt
      (extend w
         ((if bool_decide (config g = "") then [EvCreateDefaultConfig (localrpms g)] else [])
          ++ [EvLoadBuilderConf (config g); EvReadBuilderConf;
              EvInitMix (Itoa (clearver (initFlags g))) (Itoa (mixver (initFlags g)))
                        (all (initFlags g)) (upstreamurl (initFlags g))])).
Proof.
  intros Hdef Hload Hread Hinit. simpl. rewrite runInit_cases. cbv zeta.
  rewrite Hload, Hread, Hinit. unfold initPrelude.
  case_bool_decide; [rewrite Hdef by done|]; same_world.
Qed.

Lemma runInit_initialises_mix_witness :
  (config (invocation false false "") = ""
   → createDefaultConfig bareHost (localrpms (invocation false false "")) = None)
  ∧ loadBuilderConf bareHost (config (invocation false false "")) = None
  ∧ readBuilderConf bareHost = None
  ∧ initMix bareHost (Itoa (clearver (initFlags (invocation false false ""))))
            (Itoa (mixver (initFlags (invocation false false ""))))
            (all (initFlags (invocation false false "")))
            (upstreamurl (initFlags (invocation false false ""))) = None
  ∧ Run initCmd bareHost (invocation false false "") fresh
    = Return tt (mkWorld false
        [EvCreateDefaultConfig false; EvLoadBuilderConf ""; EvReadBuilderConf;
         EvInitMix "1" "0" false "https://download.clearlinux.org"]).
Proof.
  split; [reflexivity|]. split; [reflexivity|]. split; [reflexivity|]. split; [reflexivity|].
  apply (runInit_initialises_mix bareHost (invocation false false "") fresh);
    reflexivity.
Defined.

(** [runInit] ends the process through [fail] at the first call of the
    builder that returns an error, with that error; the calls after it are
    not made. *)
Theorem runInit_stops_at_first_error (env : Env) (g : Globals) (w : World) (err : error) :
  (config g = "" → createDefaultConfig env (localrpms g) = Some err →
   runInit env g w = fail g err (extend w [EvCreateDefaultConfig (localrpms g)]))
  ∧ ((config g = "" → createDefaultConfig env (localrpms g) = None) →
     loadBuilderConf env (config g) = Some err →
     runInit env g w = fail g err (extend w (initPrelude g)))
  ∧ ((config g = "" → createDefaultConfig env (localrpms g) = None) →
     loadBuilderConf env (config g) = None →
     readBuilderConf env = Some err →
     runInit env g w = fail g err (extend w (initPrelude g ++ [EvReadBuilderConf]))).
Proof.
  rewrite runInit_cases. cbv zeta. split; [|split].
  - intros Hcfg Hdef. by rewrite bool_decide_eq_true_2, Hdef.
  - intros Hdef ->. case_bool_decide; [by rewrite Hdef|done].
  - intros Hdef -> ->. case_bool_decide; [by rewrite Hdef|done].
Qed.

Lemma runInit_stops_at_first_error_witness :
  (config (invocation false false "") = ""
   → createDefaultConfig bareHost (localrpms (invocation false false "")) = None)
  ∧ loadBuilderConf brokenConfHost (config (invocation false false ""))
    = Some (str "builder.conf: no such file")
  ∧ runInit brokenConfHost (invocation false false "") fresh
    = fail (invocation false false "") (str "builder.conf: no such file")
           (extend fresh (initPrelude (invocation false false ""))).
Proof.
  split; [reflexivity|]. split; [reflexivity|].
  apply (runInit_stops_at_first_error brokenConfHost (invocation false false "") fresh
           (str "builder.conf: no such file")); reflexivity.
Defined.

(** [runInit] calls [InitMix] only once the configuration has been
    loaded and read without error (and, when none was given, the default
    one created), and only with the decimal text of the two version
    flags, the all-bundles flag and the upstream URL. *)
Theorem runInit_initMix_after_configuration (env : Env) (g : Globals) (w : World)
    (cv mv : string) (a : bool) (url : string) :
  EvInitMix cv mv a url ∈ log (worldOf (runInit env g w)) →
  EvInitMix cv mv a url ∈ log w
  ∨ ((config g = "" → createDefaultConfig env (localrpms g) = None)
     ∧ loadBuilderConf env (config g) = None
     ∧ readBuilderConf env = None
     ∧ cv = Itoa (clearver (initFlags g)) ∧ mv = Itoa (mixver (initFlags g))
     ∧ a = all (initFlags g) ∧ url = upstreamurl (initFlags g)).
Proof.
  rewrite runInit_cases. cbv zeta. unfold initPrelude. intros Hin.
  destruct (bool_decide (config g = "")) eqn:Hcfg.
  - destruct (createDefaultConfig env (localrpms g)) eqn:Hdef.
    { rewrite fail_spec in Hin. by in_new_events Hin. }
    destruct (loadBuilderConf env (config g)).
    { rewrite fail_spec in Hin. by in_new_events Hin. }
    destruct (readBuilderConf env).
    { rewrite fail_spec in Hin. by in_new_events Hin. }
    destruct (initMix env _ _ _ _); rewrite ?fail_spec in Hin; in_new_events Hin;
      injection Hin as -> -> -> ->; right; done.
  - apply bool_decide_eq_false in Hcfg.
    destruct (loadBuilderConf env (config g)).
    { rewrite fail_spec in Hin. by in_new_events Hin. }
    destruct (readBuilderConf env).
    { rewrite fail_spec in Hin. by in_new_events Hin. }
    destruct (initMix env _ _ _ _); rewrite ?fail_spec in Hin; in_new_events Hin;
      injection Hin as -> -> -> ->; right; done.
Qed.

Lemma runInit_initMix_after_configuration_witness :
  EvInitMix "1" "0" false "https://download.clearlinux.org"
    ∈ log (worldOf (runInit bareHost (invocation false false "") fresh))
  ∧ (EvInitMix "1" "0" false "https://download.clearlinux.org" ∈ log fresh
     ∨ ((config (invocation false false "") = ""
         → createDefaultConfig bareHost (localrpms (invocation false false "")) = None)
        ∧ loadBuilderConf bareHost (config (invocation false false "")) = None
        ∧ readBuilderConf bareHost = None
        ∧ "1" = Itoa (clearver (initFlags (invocation false false "")))
        ∧ "0" = Itoa (mixver (initFlags (invocation false false "")))
        ∧ false = all (initFlags (invocation false false ""))
        ∧ "https://download.clearlinux.org"
          = upstreamurl (initFlags (invocation false false "")))).
Proof.
  assert (EvInitMix "1" "0" false "https://download.clearlinux.org"
            ∈ log (worldOf (runInit bareHost (invocation false false "") fresh))) as Hin.
  { vm_compute. do 3 (apply elem_of_cons; right). apply elem_of_cons. by left. }
  split; [exact Hin|].
  apply (runInit_initMix_after_configuration bareHost (invocation false false "") fresh
           "1" "0" false "https://download.clearlinux.org" Hin).
Defined.

(** With a configuration file given, [runInit] never creates the default
    configuration, whatever the builder answers. *)
Theorem runInit_keeps_given_configuration (env : Env) (g : Globals) (w : World) :
  config g ≠ "" →
  ∃ evs, log (worldOf (runInit env g w)) = log w ++ evs
         ∧ ∀ lr, EvCreateDefaultConfig lr ∉ evs.
Proof.
  intros Hcfg. rewrite runInit_cases. cbv zeta. unfold initPrelude.
  rewrite !bool_decide_eq_false_2 by done.
  destruct (loadBuilderConf env (config g));
    [|destruct (readBuilderConf env); [|destruct (initMix env _ _ _ _)]];
    rewrite ?fail_spec; cbn [worldOf extend log]; rewrite <- ?app_assoc;
    (eexists; split; [reflexivity|]); intros lr Hin; in_new_events Hin.
Qed.

Lemma runInit_keeps_given_configuration_witness :
  config (mkGlobals false false "" "builder.conf" false defaultInitFlags) ≠ ""
  ∧ ∃ evs, log (worldOf (runInit bareHost
                   (mkGlobals false false "" "builder.conf" false defaultInitFlags) fresh))
           = log fresh ++ evs
           ∧ ∀ lr, EvCreateDefaultConfig lr ∉ evs.
Proof.
  assert (config (mkGlobals false false "" "builder.conf" false defaultInitFlags) ≠ "")
    as Hcfg by done.
  split; [exact Hcfg|].
  apply (runInit_keeps_given_configuration bareHost
           (mkGlobals false false "" "builder.conf" false defaultInitFlags) fresh Hcfg).
Defined.

(** ** The hooks of the root command *)

(** When the profiling set-up fails, because the file cannot be created
    or because a capture is already running, the pre-run hook ends the
    process with status 1 after one line on the error stream: no capture
    is started, and neither a query nor a lookup follows. *)
Theorem profile_setup_failure_aborts (env : Env) (externalDeps : gmap positive (list string))
    (g : Globals) (cmd : Command) (w : World) :
  cpuProfile g ≠ "" →
  (∀ err, createFails env (cpuProfile g) = Some err →
     PersistentPreRunE env externalDeps g cmd w
     = Exited 1 (extend w [EvStderr ("ERROR: couldn't create file for CPU profile: "
                                     ++ goText err ++ nl)]))
  ∧ (createFails env (cpuProfile g) = None → profiling w = true →
     PersistentPreRunE env externalDeps g cmd w
     = Exited 1 (extend w [EvCreate (cpuProfile g);
                           EvStderr ("ERROR: couldn't start profiling: "
                                     ++ "cpu profiling already in use" ++ nl)])).
Proof.
  intros Hp. split.
  - intros err Hcreate. by apply PersistentPreRunE_createFails.
  - intros Hcreate Hon. unfold PersistentPreRunE. unfold bind at 1.
    rewrite bool_decide_eq_true_2 by done. rewrite Hcreate.
    unfold bind at 1 2. rewrite emit_extend. unfold StartCPUProfile.
    cbn [extend profiling]. rewrite Hon. rewrite failf_spec. same_world.
Qed.

Lemma profile_setup_failure_aborts_witness :
  cpuProfile (invocation false false "cpu.prof") ≠ ""
  ∧ createFails bareHost (cpuProfile (invocation false false "cpu.prof")) = None
  ∧ profiling capturing = true
  ∧ PersistentPreRunE bareHost externalDeps (invocation false false "cpu.prof") initCmd capturing
    = Exited 1 (extend capturing
                  [EvCreate (cpuProfile (invocation false false "cpu.prof"));
                   EvStderr ("ERROR: couldn't start profiling: "
                             ++ "cpu profiling already in use" ++ nl)]).
Proof.
  assert (cpuProfile (invocation false false "cpu.prof") ≠ "") as Hp by done.
  split; [exact Hp|]. split; [reflexivity|]. split; [reflexivity|].
  apply (profile_setup_failure_aborts bareHost externalDeps (invocation false false "cpu.prof")
           initCmd capturing Hp); reflexivity.
Defined.

(** The version and check flags count on the root command only: for a
    command that has a parent the pre-run hook goes from the profiling
    set-up straight to the dependency check, whatever the two flags
    hold. *)
Theorem subcommand_ignores_root_queries (env : Env)
    (externalDeps : gmap positive (list string)) (g : Globals) (cmd p : Command) (w : World) :
  Parent cmd = Some p →
  profileSetupSucceeds env g w →
  PersistentPreRunE env externalDeps g cmd w
  = checkCmdDeps env externalDeps cmd (afterProfileSetup g w).
Proof.
  intros Hparent Hsetup. apply PersistentPreRunE_reached; [done|].
  unfold rootQuery. by rewrite Hparent.
Qed.

Lemma subcommand_ignores_root_queries_witness :
  Parent initCmd = Some RootCmd
  ∧ profileSetupSucceeds bareHost (invocation true true "") fresh
  ∧ PersistentPreRunE bareHost externalDeps (invocation true true "") initCmd fresh
    = checkCmdDeps bareHost externalDeps initCmd (afterProfileSetup (invocation true true "") fresh).
Proof.
  assert (profileSetupSucceeds bareHost (invocation true true "") fresh) as Hsetup
    by (left; reflexivity).
  split; [reflexivity|]. split; [exact Hsetup|].
  apply (subcommand_ignores_root_queries bareHost externalDeps (invocation true true "")
           initCmd RootCmd fresh eq_refl Hsetup).
Defined.

(** ** [Execute] when the check passes *)

Lemma checkCmdDeps_passes (env : Env) (externalDeps : gmap positive (list string))
    (cmd : Command) (w : World) :
  (∀ x, x ∈ chainSet externalDeps cmd → lookPathFinds env x = true) →
  checkCmdDeps env externalDeps cmd w
  = Return None (extend w (EvLookPath <$> sortedNames (chainSet externalDeps cmd))).
Proof.
  intros Hall. rewrite checkCmdDeps_spec. cbv zeta.
  destruct (filter (unresolved env) (sortedNames (chainSet externalDeps cmd)))
    as [|x missing] eqn:Hm; [done|].
  assert (x ∈ filter (unresolved env) (sortedNames (chainSet externalDeps cmd))) as Hx
    by (rewrite Hm; by left).
  apply list_elem_of_filter in Hx as [Hun Hx]. apply sortedNames_elem_of, Hall in Hx.
  unfold unresolved in Hun. congruence.
Qed.

(** [Execute] past a check that finds every name: the lookups, then the
    command's [Run], then the post-run hook. *)
Lemma Execute_check_passes (env : Env) (externalDeps : gmap positive (list string))
    (g : Globals) (cmd : Command) (w : World) :
  profileSetupSucceeds env g w →
  rootQuery g cmd = false →
  (∀ x, x ∈ chainSet externalDeps cmd → lookPathFinds env x = true) →
  Execute env externalDeps g cmd w
  = (Run cmd env g;; PersistentPostRun g)
      (extend (afterProfileSetup g w)
         ((EvLookPath <$> sortedNames (chainSet externalDeps cmd)) ++ [EvRun (ptr cmd)])).
Proof.
  intros Hsetup Hq Hall.
  rewrite (Execute_guard_ok env externalDeps g cmd w
             (extend (afterProfileSetup g w)
                (EvLookPath <$> sortedNames (chainSet externalDeps cmd)))).
  - by rewrite extend_extend.
  - rewrite PersistentPreRunE_reached by done. by apply checkCmdDeps_passes.
Qed.



(** ** More on the dependency checks *)

Lemma checkCmdDeps_fails_iff (env : Env) (externalDeps : gmap positive (list string))
    (cmd : Command) (w : World) :
  (∃ e w', checkCmdDeps env externalDeps cmd w = Return (Some e) w')
  ↔ ∃ x, x ∈ chainSet externalDeps cmd ∧ unresolved env x.
Proof.
  rewrite checkCmdDeps_spec. cbv zeta. split.
  - intros (e & w' & Heq).
    destruct (filter (unresolved env) (sortedNames (chainSet externalDeps cmd)))
      as [|x missing] eqn:Hm; [done|].
    assert (x ∈ filter (unresolved env) (sortedNames (chainSet externalDeps cmd))) as Hx
      by (rewrite Hm; by left).
    apply list_elem_of_filter in Hx as [Hun Hx]. exists x.
    split; [by apply sortedNames_elem_of|done].
  - intros (x & Hx & Hun).
    assert (x ∈ filter (unresolved env) (sortedNames (chainSet externalDeps cmd))) as Hin.
    { apply list_elem_of_filter. split; [done|]. by apply sortedNames_elem_of. }
    destruct (filter (unresolved env) (sortedNames (chainSet externalDeps cmd)));
      [by apply elem_of_nil in Hin|]. by eexists _, _.
Qed.




Lemma chainSet_subseteq_allSet (externalDeps : gmap positive (list string)) (cmd : Command) :
  chainSet externalDeps cmd ⊆ allSet externalDeps.
Proof.
  intros x. rewrite elem_of_chainSet, elem_of_allSet. intros (c & _ & Hx).
  unfold depsOf in Hx. destruct (externalDeps !! ptr c) as [deps|] eqn:Hc; simpl in Hx.
  - by exists (ptr c), deps.
  - by apply elem_of_nil in Hx.
Qed.

(** The global check covers every command: when [checkAllDeps] reports
    that all programs are present, [checkCmdDeps] returns nil for every
    command, in every state of the process. *)
Theorem global_check_covers_every_command (env : Env)
    (externalDeps : gmap positive (list string)) (w w1 : World) :
  RangeVisitsEachOnce env →
  checkAllDeps env externalDeps w = Return true w1 →
  ∀ cmd w2, checkCmdDeps env externalDeps cmd w2
            = Return None (extend w2 (EvLookPath <$> sortedNames (chainSet externalDeps cmd))).
Proof.
  intros Hrange Hall cmd w2. rewrite checkAllDeps_spec in Hall by done. cbv zeta in Hall.
  injection Hall as Hall _. rewrite forallb_forall in Hall.
  apply checkCmdDeps_passes. intros x Hx. apply Hall, list_elem_of_In.
  by apply sortedNames_elem_of, (chainSet_subseteq_allSet externalDeps cmd).
Qed.

Lemma global_check_covers_every_command_witness :
  RangeVisitsEachOnce rpmHost
  ∧ (∃ w1, checkAllDeps rpmHost externalDeps fresh = Return true w1)
  ∧ checkCmdDeps rpmHost externalDeps addRPMCmd fresh
    = Return None (extend fresh (EvLookPath <$> sortedNames (chainSet externalDeps addRPMCmd))).
Proof.
  assert (RangeVisitsEachOnce rpmHost) as Hrange by (intros l; apply reverse_Permutation).
  assert (checkAllDeps rpmHost externalDeps fresh
          = Return true (worldOf (checkAllDeps rpmHost externalDeps fresh))) as Hall
    by (vm_compute; reflexivity).
  split; [exact Hrange|]. split; [by eexists|].
  apply (global_check_covers_every_command rpmHost externalDeps fresh _ Hrange Hall).
Defined.

(** A registry that declares no name at all passes the global check with
    the header as its only output, on every host. *)
Theorem global_check_of_empty_registry (env : Env)
    (externalDeps : gmap positive (list string)) (w : World) :
  RangeVisitsEachOnce env →
  allSet externalDeps = ∅ →
  checkAllDeps env externalDeps w = Return true (extend w [EvStdout reportHeader]).
Proof.
  intros Hrange Hempty. rewrite checkAllDeps_spec by done. cbv zeta.
  by rewrite Hempty, sortedNames_empty.
Qed.

Lemma global_check_of_empty_registry_witness :
  RangeVisitsEachOnce bareHost
  ∧ allSet (∅ : gmap positive (list string)) = ∅
  ∧ checkAllDeps bareHost ∅ fresh = Return true (extend fresh [EvStdout reportHeader]).
Proof.
  assert (RangeVisitsEachOnce bareHost) as Hrange by (intros l; apply reverse_Permutation).
  assert (allSet (∅ : gmap positive (list string)) = ∅) as Hempty by reflexivity.
  split; [exact Hrange|]. split; [exact Hempty|].
  apply (global_check_of_empty_registry bareHost ∅ fresh Hrange Hempty).
Defined.

(** ** The registry of the package *)

Lemma registered_names :
  sortedNames (chainSet externalDeps RootCmd) = []
  ∧ sortedNames (chainSet externalDeps initCmd) = ["git"]
  ∧ sortedNames (chainSet externalDeps addRPMCmd) = ["createrepo_c"; "hardlink"]
  ∧ sortedNames (allSet externalDeps) = ["createrepo_c"; "git"; "hardlink"].
Proof. repeat split; vm_compute; reflexivity. Qed.

(** What the [init] functions register, as the check sees it on any
    host: the root command requires no program and is never refused;
    [init] requires [git] and is refused exactly when [git] does not
    resolve; [add-rpms] requires [createrepo_c] and [hardlink] and is
    refused with the list of those of the two that do not resolve. *)
Theorem registered_requirements (env : Env) (w : World) :
  checkCmdDeps env externalDeps RootCmd w = Return None w
  ∧ checkCmdDeps env externalDeps initCmd w
    = Return (if lookPathFinds env "git" then None
              else Some (mkValue "*errors.fundamental"
                                 "missing following external programs: git"))
             (extend w [EvLookPath "git"])
  ∧ checkCmdDeps env externalDeps addRPMCmd w
    = Return (missingError (filter (unresolved env) ["createrepo_c"; "hardlink"]))
             (extend w [EvLookPath "createrepo_c"; EvLookPath "hardlink"]).
Proof.
  destruct registered_names as (Hroot & Hinit & Hadd & _).
  rewrite !checkCmdDeps_spec. cbv zeta. rewrite Hroot, Hinit, Hadd.
  split; [by rewrite extend_nil|]. split; [|done].
  rewrite filter_cons, filter_nil.
  destruct (decide (unresolved env "git")) as [Hun|Hun]; unfold unresolved in Hun.
  - by rewrite Hun.
  - apply not_false_iff_true in Hun. by rewrite Hun.
Qed.

(** [mixer --check] lists exactly [createrepo_c], [git] and [hardlink],
    in this order, in a column twelve characters wide, whatever the
    order in which [range] visits the registry; it returns true exactly
    when the three resolve. *)
Theorem global_check_lists_three_programs (env : Env) (w : World) :
  RangeVisitsEachOnce env →
  checkAllDeps env externalDeps w
  = Return (lookPathFinds env "createrepo_c" && lookPathFinds env "git"
            && lookPathFinds env "hardlink")
           (extend w [EvStdout reportHeader;
                      EvLookPath "createrepo_c"; EvStdout (reportLine env 12 "createrepo_c");
                      EvLookPath "git"; EvStdout (reportLine env 12 "git");
                      EvLookPath "hardlink"; EvStdout (reportLine env 12 "hardlink")]).
Proof.
  intros Hrange. destruct registered_names as (_ & _ & _ & Hall).
  rewrite checkAllDeps_spec by done. cbv zeta. rewrite Hall.
  cbn [forallb]. rewrite andb_true_r, andb_assoc. done.
Qed.

Lemma global_check_lists_three_programs_witness :
  RangeVisitsEachOnce gitHost
  ∧ checkAllDeps gitHost externalDeps fresh
    = Return false
        (mkWorld false
           [EvStdout ("Programs used by Mixer commands:" ++ nl);
            EvLookPath "createrepo_c"; EvStdout ("  createrepo_c not found" ++ nl);
            EvLookPath "git";          EvStdout ("  git          ok" ++ nl);
            EvLookPath "hardlink";     EvStdout ("  hardlink     not found" ++ nl)]).
Proof.
  assert (RangeVisitsEachOnce gitHost) as Hrange by (intros l; apply reverse_Permutation).
  split; [exact Hrange|].
  exact (global_check_lists_three_programs gitHost fresh Hrange).
Defined.

(** ** Exit statuses *)

Section ExitStatus.

Context (env : Env) (externalDeps : gmap positive (list string)) (g : Globals).

Lemma exits_bind {A B} (m : M A) (f : A → M B) (w : World) :
  exitsZeroOrOne (m w) →
  (∀ a w', exitsZeroOrOne (f a w')) →
  exitsZeroOrOne (bind m f w).
Proof. unfold bind. destruct (m w); [auto|done]. Qed.

Lemma exits_ret {A} (a : A) (w : World) : exitsZeroOrOne (ret a w).
Proof. done. Qed.

Lemma exits_emit (e : Event) (w : World) : exitsZeroOrOne (emit e w).
Proof. done. Qed.

Lemma exits_printStdout (text : string) (w : World) : exitsZeroOrOne (printStdout text w).
Proof. done. Qed.

Lemma exits_osExit_0 {A} (w : World) : exitsZeroOrOne (osExit (A:=A) 0 w).
Proof. by left. Qed.

Lemma exits_osExit_1 {A} (w : World) : exitsZeroOrOne (osExit (A:=A) 1 w).
Proof. by right. Qed.

Lemma exits_fail {A} (err : error) (w : World) : exitsZeroOrOne (fail (A:=A) g err w).
Proof. rewrite fail_spec. by right. Qed.

Lemma exits_failf {A} (format : string) (a : list Value) (w : World) :
  exitsZeroOrOne (failf (A:=A) g format a w).
Proof. rewrite failf_spec. by right. Qed.

Lemma exits_StopCPUProfile (w : World) : exitsZeroOrOne (StopCPUProfile w).
Proof. done. Qed.

Lemma exits_StartCPUProfile (w : World) : exitsZeroOrOne (StartCPUProfile w).
Proof. unfold StartCPUProfile. by destruct (profiling w). Qed.

Lemma exits_checkCmdDeps (cmd : Command) (w : World) :
  exitsZeroOrOne (checkCmdDeps env externalDeps cmd w).
Proof. by rewrite checkCmdDeps_spec. Qed.

(** [checkAllDeps] returns, whatever the order of [range]. *)
Lemma checkAllDeps_returns (w : World) :
  ∃ ok w', checkAllDeps env externalDeps w = Return ok w'.
Proof.
  unfold checkAllDeps. unfold bind at 1. rewrite printStdout_extend.
  pose proof (report_from env (sortStrings (allDeclared env externalDeps))
    (maxLen (sortStrings (allDeclared env externalDeps)))
    (sortStrings (allDeclared env externalDeps)) [] true
    (extend w [EvStdout ("Programs used by Mixer commands:" ++ nl)]) eq_refl) as Hloop.
  simpl length in Hloop. rewrite Hloop. by eexists _, _.
Qed.

Lemma exits_checkAllDeps (w : World) : exitsZeroOrOne (checkAllDeps env externalDeps w).
Proof. by destruct (checkAllDeps_returns w) as (ok & w' & ->). Qed.

Create HintDb exit01.
Hint Resolve exits_ret exits_emit exits_printStdout exits_osExit_0 exits_osExit_1 exits_fail exits_failf
  exits_StopCPUProfile exits_StartCPUProfile exits_checkCmdDeps exits_checkAllDeps : exit01.

(** Takes a sequence of steps apart, each step by the cases it tests. *)
Ltac exits :=
  repeat first
    [ solve [auto with exit01]
    | apply exits_bind; [|intros ? ?]
    | case_bool_decide
    | match goal with |- context [match ?x with _ => _ end] => destruct x end ].

Lemma exits_PersistentPreRunE (cmd : Command) (w : World) :
  exitsZeroOrOne (PersistentPreRunE env externalDeps g cmd w).
Proof. unfold PersistentPreRunE. exits. Qed.

Lemma exits_PersistentPostRun (w : World) : exitsZeroOrOne (PersistentPostRun g w).
Proof. unfold PersistentPostRun. exits. Qed.

Lemma exits_runRoot (self : positive) (w : World) : exitsZeroOrOne (runRoot self env g w).
Proof. unfold runRoot. exits. Qed.

Lemma exits_runInit (w : World) : exitsZeroOrOne (runInit env g w).
Proof. unfold runInit. exits. Qed.

Lemma exits_runAddRPM (w : World) : exitsZeroOrOne (runAddRPM env g w).
Proof. unfold runAddRPM. exits. Qed.

(** [Execute] adds no exit status of its own beyond 0 and 1. *)
Lemma exits_Execute (cmd : Command) (w : World) :
  (∀ w', exitsZeroOrOne (Run cmd env g w')) →
  exitsZeroOrOne (Execute env externalDeps g cmd w).
Proof.
  intros Hrun. unfold Execute, cobraExecute.
  pose proof exits_PersistentPreRunE. pose proof exits_PersistentPostRun. exits.
Qed.

End ExitStatus.

(** Whatever the host, the flags, the registry and the state it starts
    in, an invocation of one of the three commands of the package either
    returns from [Execute] or ends the process with status 0 or 1; no
    other status is ever used. *)
Theorem exit_status_is_zero_or_one (env : Env) (externalDeps : gmap positive (list string))
    (g : Globals) (cmd : Command) (w : World) :
  cmd ∈ mixerCommands →
  exitsZeroOrOne (Execute env externalDeps g cmd w).
Proof.
  intros Hcmd. apply exits_Execute. intros w'.
  unfold mixerCommands in Hcmd.
  repeat (apply elem_of_cons in Hcmd as [->|Hcmd]); [| | |by apply elem_of_nil in Hcmd].
  - apply exits_runRoot.
  - apply exits_runInit.
  - apply exits_runAddRPM.
Qed.

Lemma exit_status_is_zero_or_one_witness :
  addRPMCmd ∈ mixerCommands
  ∧ exitsZeroOrOne (Execute rpmHost externalDeps (invocation false false "cpu.prof")
                      addRPMCmd fresh).
Proof.
  assert (addRPMCmd ∈ mixerCommands) as Hcmd.
  { unfold mixerCommands. apply elem_of_cons. right. apply elem_of_cons. right.
    apply elem_of_cons. by left. }
  split; [exact Hcmd|].
  apply (exit_status_is_zero_or_one rpmHost externalDeps (invocation false false "cpu.prof")
           addRPMCmd fresh Hcmd).
Defined.

(** ** [failf] without verbs *)

Lemma Sprintf_noVerb (format rest : string) :
  noVerb format = true →
  Sprintf (format ++ rest) [] = (format ++ Sprintf rest [])%string.
Proof.
  induction format as [|c format IH]; [done|].
  cbn [noVerb]. intros [Hc Hrest]%andb_true_iff.
  change (String c format ++ rest)%string with (String c (format ++ rest)%string).
  change (String c format ++ Sprintf rest [])%string
    with (String c (format ++ Sprintf rest [])%string).
  rewrite <- IH by done. cbn [Sprintf].
  destruct (Ascii.eqb_spec c "%") as [->|Hne]; [done|].
  destruct c as [[] [] [] [] [] [] [] []]; try done.
Qed.

(** Called with a message that holds no percent sign and with no
    operands, [failf] writes [ERROR: ], the message as it is and a line
    feed, and ends the process with status 1. *)
Theorem failf_writes_plain_message (g : Globals) (message : string) (w : World) :
  noVerb message = true →
  failf (A:=unit) g message [] w
  = Exited 1 (extend w [EvStderr ("ERROR: " ++ message ++ nl)]).
Proof.
  intros Hplain. rewrite failf_spec. by rewrite Sprintf_noVerb.
Qed.

Lemma failf_writes_plain_message_witness :
  noVerb "RPMDIR not set in configuration" = true
  ∧ failf (A:=unit) (invocation false false "") "RPMDIR not set in configuration" [] fresh
    = Exited 1 (extend fresh [EvStderr ("ERROR: " ++ "RPMDIR not set in configuration" ++ nl)]).
Proof.
  split; [reflexivity|].
  apply (failf_writes_plain_message (invocation false false "")
           "RPMDIR not set in configuration" fresh); reflexivity.
Defined.

(** ** The root command by itself *)

(** [mixer] without a subcommand and without a query flag needs no
    external program: past the profiling set-up it looks nothing up,
    prints its usage on the error stream and returns, the capture
    stopped if one was started. *)
Theorem root_command_prints_usage (env : Env) (g : Globals) (w : World) :
  profileSetupSucceeds env g w →
  version g = false →
  check g = false →
  Execute env externalDeps g RootCmd w
  = Return tt
      (mkWorld (if bool_decide (cpuProfile g ≠ "") then false else profiling w)
         (log (afterProfileSetup g w)
          ++ [EvRun (ptr RootCmd); EvStderr (usageString env (ptr RootCmd))]
          ++ (if bool_decide (cpuProfile g ≠ "") then [EvStopCPUProfile] else []))).
Proof.
  intros Hsetup Hv Hc. destruct registered_names as (Hroot & _).
  rewrite Execute_check_passes; [|done|by unfold rootQuery; rewrite Hv, Hc|].
  - rewrite Hroot. unfold bind, PersistentPostRun, afterProfileSetup.
    cbn [Run RootCmd]. unfold runRoot. rewrite emit_extend.
    case_bool_decide; unfold StopCPUProfile, ret; f_equal; destruct w; same_world.
  - intros x Hx. apply sortedNames_elem_of in Hx. rewrite Hroot in Hx.
    by apply elem_of_nil in Hx.
Qed.

Lemma root_command_prints_usage_witness :
  profileSetupSucceeds bareHost (invocation false false "") fresh
  ∧ version (invocation false false "") = false
  ∧ check (invocation false false "") = false
  ∧ Execute bareHost externalDeps (invocation false false "") RootCmd fresh
    = Return tt (mkWorld false [EvRun 1; EvStderr "Usage: mixer [command]"]).
Proof.
  assert (profileSetupSucceeds bareHost (invocation false false "") fresh) as Hsetup
    by (left; reflexivity).
  split; [exact Hsetup|]. split; [reflexivity|]. split; [reflexivity|].
  exact (root_command_prints_usage bareHost (invocation false false "") fresh
           Hsetup eq_refl eq_refl).
Defined.

(** Both queries of the root command end the process inside the pre-run
    hook through [os.Exit]; with a profile destination configured the
    capture that the hook started is still running then, and
    [pprof.StopCPUProfile] has not been called. *)
Theorem root_queries_exit_with_capture_running (env : Env)
    (externalDeps : gmap positive (list string)) (g : Globals) (cmd : Command) (w : World) :
  RangeVisitsEachOnce env →
  cpuProfile g ≠ "" →
  profileSetupSucceeds env g w →
  Parent cmd = None →
  version g = true ∨ check g = true →
  ∃ status w', Execute env externalDeps g cmd w = Exited status w'
               ∧ profiling w' = true
               ∧ (EvStopCPUProfile ∈ log w' → EvStopCPUProfile ∈ log w).
Proof.
  intros Hrange Hp Hsetup Hroot Hquery.
  assert (afterProfileSetup g w
          = mkWorld true (log w ++ [EvCreate (cpuProfile g); EvStartCPUProfile])) as Hafter
    by (unfold afterProfileSetup; by rewrite bool_decide_eq_true_2).
  destruct (version g) eqn:Hv.
  - eexists _, _. split; [|split].
    + apply Execute_exited. by apply PersistentPreRunE_version.
    + by rewrite Hafter.
    + rewrite Hafter. intros Hin. by in_new_events Hin.
  - destruct Hquery as [?|Hc]; [done|]. eexists _, _. split; [|split].
    + apply Execute_exited. by apply PersistentPreRunE_check.
    + by rewrite Hafter.
    + rewrite Hafter. cbn [extend log]. rewrite !elem_of_app, !elem_of_cons.
      intros [[Hin|Hin]|[Hin|Hin]]; [done| |done|].
      * by in_new_events Hin.
      * exfalso. apply list_elem_of_concat in Hin as (evs & Hevs & Hin).
        apply list_elem_of_fmap in Hevs as (x & -> & _).
        unfold reportEvents in Hin. by in_new_events Hin.
Qed.

Lemma root_queries_exit_with_capture_running_witness :
  RangeVisitsEachOnce bareHost
  ∧ cpuProfile (invocation true false "cpu.prof") ≠ ""
  ∧ profileSetupSucceeds bareHost (invocation true false "cpu.prof") fresh
  ∧ Parent RootCmd = None
  ∧ (version (invocation true false "cpu.prof") = true
     ∨ check (invocation true false "cpu.prof") = true)
  ∧ ∃ status w',
      Execute bareHost externalDeps (invocation true false "cpu.prof") RootCmd fresh
      = Exited status w'
      ∧ profiling w' = true
      ∧ (EvStopCPUProfile ∈ log w' → EvStopCPUProfile ∈ log fresh).
Proof.
  assert (RangeVisitsEachOnce bareHost) as Hrange by (intros l; apply reverse_Permutation).
  assert (cpuProfile (invocation true false "cpu.prof") ≠ "") as Hp by done.
  assert (profileSetupSucceeds bareHost (invocation true false "cpu.prof") fresh) as Hsetup
    by (right; split; reflexivity).
  split; [exact Hrange|]. split; [exact Hp|]. split; [exact Hsetup|].
  split; [reflexivity|]. split; [left; reflexivity|].
  apply (root_queries_exit_with_capture_running bareHost externalDeps
           (invocation true false "cpu.prof") RootCmd fresh Hrange Hp Hsetup eq_refl).
  left. reflexivity.
Defined.

(** ** Hosts compared *)

(** Installing programs never gets a command refused: when [checkCmdDeps]
    returns nil on a host, it returns nil on every host on which at least
    the same names resolve. *)
Theorem more_programs_never_refuse (env env' : Env)
    (externalDeps : gmap positive (list string)) (cmd : Command) (w w' w1 : World) :
  (∀ x, lookPathFinds env x = true → lookPathFinds env' x = true) →
  checkCmdDeps env externalDeps cmd w = Return None w1 →
  checkCmdDeps env' externalDeps cmd w'
  = Return None (extend w' (EvLookPath <$> sortedNames (chainSet externalDeps cmd))).
Proof.
  intros Hmore Hpass. apply checkCmdDeps_passes. intros x Hx. apply Hmore.
  destruct (lookPathFinds env x) eqn:Hfound; [done|]. exfalso.
  assert (∃ e w2, checkCmdDeps env externalDeps cmd w = Return (Some e) w2) as (e & w2 & He).
  { apply checkCmdDeps_fails_iff. by exists x. }
  congruence.
Qed.

Lemma more_programs_never_refuse_witness :
  (∀ x, lookPathFinds gitHost x = true → lookPathFinds rpmHost x = true)
  ∧ checkCmdDeps gitHost externalDeps initCmd fresh
    = Return None (mkWorld false [EvLookPath "git"])
  ∧ checkCmdDeps rpmHost externalDeps initCmd fresh
    = Return None (extend fresh (EvLookPath <$> sortedNames (chainSet externalDeps initCmd))).
Proof.
  assert (∀ x, lookPathFinds gitHost x = true → lookPathFinds rpmHost x = true) as Hmore
    by done.
  assert (checkCmdDeps gitHost externalDeps initCmd fresh
          = Return None (mkWorld false [EvLookPath "git"])) as Hpass
    by (vm_compute; reflexivity).
  split; [exact Hmore|]. split; [exact Hpass|].
  apply (more_programs_never_refuse gitHost rpmHost externalDeps initCmd fresh fresh _
           Hmore Hpass).
Defined.

(** ** The name column in bytes *)





